(** * The Azure account facade of cloud-carbon-footprint

    A shallow embedding of [packages/azure/src/application/AzureAccount.ts]:
    the class [AzureAccount] with its two instance fields, its asynchronous
    public operations and the request scheduler they share.

    Asynchronous code is embedded by explicit state passing.  The state holds
    the instance fields of the facade and the history of observable events
    (logger lines, console timers, and the start and the end of every upstream
    query).  A call of an [async] function runs its synchronous prefix and
    hands back the rest of its body, which runs once the awaited upstream call
    has settled; [Promise.all] issues nothing itself, it lets the pending
    continuations run in an order chosen by an arbitrary completion oracle and
    stores each value at the index of its promise. *)

From stdpp Require Import base list strings pretty.

(** ** Values thrown and promises settled *)

(** A JavaScript [Error]; the code reads nothing but [e.message]. *)
Record Error := { message : string }.

Inductive settled (A : Type) : Type :=
  | Fulfilled (value : A)
  | Rejected (reason : Error).
Arguments Fulfilled {A} value.
Arguments Rejected {A} reason.

(** ** Observable events *)

Inductive LogLevel := Debug | Info | Warn.

Inductive event :=
  | Log (level : LogLevel) (line : string)    (* this.logger.<level>(line) *)
  | ConsoleTime (label : string)              (* console.time(label) *)
  | ConsoleTimeEnd (label : string)           (* console.timeEnd(label) *)
  | Issued (subscriptionId : string)          (* an upstream query starts *)
  | Resolved (subscriptionId : string).       (* that query settles *)

(** Azure's [Subscription], of which the code reads two properties. *)
Record Subscription := {
  subscriptionId : string;
  displayName : string
}.

(** The pages of [subscriptionClient.subscriptions.list()], consumed by
    [for await]: the iterator ends, yields one more subscription, or throws. *)
Inductive paged :=
  | Done
  | Yield (subscription : Subscription) (rest : paged)
  | Throw (e : Error).

(** Modelled from the spec: the type of [configLoader().AZURE] is declared in
    the [common] package, outside these sources.  The spec gives the two
    settings read here as a boolean flag [chunkByDay] and an optional positive
    integer [subscriptionBatchSize]; [None] is JavaScript's [undefined]. *)
Record AzureConfig := {
  CONSUMPTION_CHUNKS_DAYS : bool;
  SUBSCRIPTION_CHUNKS : option positive
}.

(** ** Ramda and Array helpers *)

(** An array whose items are values or arrays again, as [R.flatten] sees it. *)
#[warnings="-register-all"]
Inductive nested (A : Type) : Type :=
  | Leaf (a : A)
  | Arr (items : list (nested A)).
Arguments Leaf {A} a.
Arguments Arr {A} items.

Fixpoint flatten_item {A} (v : nested A) : list A :=
  match v with
  | Leaf a => [a]
  | Arr items => flat_map flatten_item items
  end.

(** [R.flatten]: every level of nesting is removed. *)
Definition R_flatten {A} (items : list (nested A)) : list A :=
  flat_map flatten_item items.

(** [Array.prototype.flat()], of depth one. *)
Definition flat {A} (arrays : list (list A)) : list A := concat arrays.

(** [Array.prototype.slice(from, to)] for indices within the array's type. *)
Definition slice {A} (from to : nat) (l : list A) : list A :=
  take (to - from) (drop from l).

(** The loop of [R.splitEvery]:
    [while (idx < list.length) result.push(slice(idx, idx += n, list))]. *)
Fixpoint splitEvery_while {A} (fuel n idx : nat) (l : list A) : list (list A) :=
  match fuel with
  | 0 => []
  | S fuel' =>
      if idx <? length l
      then slice idx (idx + n) l :: splitEvery_while fuel' n (idx + n) l
      else []
  end.

(** [R.splitEvery(n, list)]; it throws unless [n] is positive.  The loop
    advances by [n >= 1], so [length list] rounds are enough. *)
Definition R_splitEvery {A} (n : Z) (l : list A) : settled (list (list A)) :=
  if (n <=? 0)%Z
  then Rejected {| message := "First argument to splitEvery must be a positive integer" |}
  else Fulfilled (splitEvery_while (length l) (Z.to_nat n) 0 l).

(** A template literal's rendering of a number that may be [undefined]. *)
Definition template_number (n : option positive) : string :=
  match n with
  | Some k => pretty k
  | None => "undefined"
  end.

(** [n || 1] *)
Definition or_one (n : option positive) : option positive :=
  match n with
  | Some k => Some k
  | None => Some 1%positive
  end.

(** ** In-flight upstream queries *)

Definition is_api (e : event) : bool :=
  match e with
  | Issued _ | Resolved _ => true
  | _ => false
  end.

(** What an instrumented upstream client records. *)
Definition api_trace (evs : list event) : list event :=
  List.filter is_api evs.

(** The largest number of queries in flight at any moment of [evs], given
    that [current] are in flight when it starts. *)
Fixpoint high_water (current : nat) (evs : list event) : nat :=
  match evs with
  | [] => current
  | Issued _ :: evs' => Nat.max current (high_water (S current) evs')
  | Resolved _ :: evs' => Nat.max current (high_water (Nat.pred current) evs')
  | _ :: evs' => high_water current evs'
  end.

Definition is_debug (e : event) : bool :=
  match e with
  | Log Debug _ => true
  | _ => false
  end.

(** The lines written at debug level. *)
Definition debug_lines (evs : list event) : list event :=
  List.filter is_debug evs.

(** [sub] occurs in [s]: JavaScript's [s.includes(sub)]. *)
Definition includes (s sub : string) : Prop :=
  ∃ before after, s = before +:+ sub +:+ after.

(** ** Computations

    A computation runs on a machine state and ends fulfilled or rejected;
    the state it reaches is kept in both cases. *)

Section Computation.

Context {S : Type}.

Definition M (A : Type) : Type := S → settled A * S.

Definition ret {A} (a : A) : M A := λ st, (Fulfilled a, st).

Definition throw {A} (e : Error) : M A := λ st, (Rejected e, st).

Definition bind {A B} (m : M A) (k : A → M B) : M B :=
  λ st,
    match m st with
    | (Fulfilled a, st') => k a st'
    | (Rejected e, st') => (Rejected e, st')
    end.

Definition try_catch {A} (m : M A) (handler : Error → M A) : M A :=
  λ st,
    match m st with
    | (Fulfilled a, st') => (Fulfilled a, st')
    | (Rejected e, st') => handler e st'
    end.

(** The outcome of an upstream call, as the awaiting code receives it. *)
Definition settle {A} (o : settled A) : M A := λ st, (o, st).

End Computation.

Arguments M : clear implicits.

Declare Scope facade_scope.
Delimit Scope facade_scope with facade.
Notation "'let*' x ':=' m 'in' k" := (bind m (λ x, k))
  (at level 10, x name, m at level 100, k at level 200) : facade_scope.
Notation "m ';;' k" := (bind m (λ _, k))
  (at level 100, k at level 200, right associativity) : facade_scope.
Open Scope facade_scope.

Section Facade.

(** Types owned by the Azure SDK and by the [core] and [common] packages. *)
Context {Credential SubscriptionClient Date GroupBy : Type}.
Context {EstimationResult RecommendationResult : Type}.
Context {LookupTableInput LookupTableOutput Coefficient : Type}.

(** ** The facade's fields and the machine state *)

(** [credentials] and [subscriptionClient] are [undefined] ([None]) until
    [initializeAccount] assigns them.  The third field, [logger], is
    assigned by the constructor and only ever called. *)
Record AzureAccount := {
  credentials : option Credential;
  subscriptionClient : option SubscriptionClient
}.

Record state := {
  this : AzureAccount;
  history : list event
}.

Definition add_events (evs : list event) (st : state) : state :=
  {| this := this st; history := history st ++ evs |}.

Definition emit (e : event) : M state unit :=
  λ st, (Fulfilled tt, add_events [e] st).

Definition read_this : M state AzureAccount :=
  λ st, (Fulfilled (this st), st).

Definition write_this (a : AzureAccount) : M state unit :=
  λ st, (Fulfilled tt, {| this := a; history := history st |}).

(** ** Objects the facade constructs *)

(** [AZURE_CLOUD_CONSTANTS] of [../domain], of which six entries are read. *)
Record CloudConstants := {
  SSDCOEFFICIENT : Coefficient;
  HDDCOEFFICIENT : Coefficient;
  NETWORKING_COEFFICIENT : Coefficient;
  MEMORY_COEFFICIENT : Coefficient;
  ESTIMATE_UNKNOWN_USAGE_BY : Coefficient;
  SERVER_EXPECTED_LIFESPAN : Coefficient
}.

(** The estimators of the [core] package, which the facade constructs and
    hands over without calling them. *)
Inductive Estimator :=
  | ComputeEstimator
  | StorageEstimator (coefficient : Coefficient)
  | NetworkingEstimator (coefficient : Coefficient)
  | MemoryEstimator (coefficient : Coefficient)
  | UnknownEstimator (estimateUnknownUsageBy : Coefficient)
  | EmbodiedEmissionsEstimator (serverExpectedLifespan : Coefficient).

(** [new ConsumptionManagementClient(credentials, subscriptionId)] and
    [new AdvisorManagementClient(credentials, subscriptionId)]. *)
Record ManagementClient := {
  client_credentials : option Credential;
  client_subscriptionId : string
}.

(** The arguments of [new ConsumptionManagementService(...)]; the client is
    the optional eighth one. *)
Record ConsumptionManagementService := {
  computeEstimator : Estimator;
  ssdStorageEstimator : Estimator;
  hddStorageEstimator : Estimator;
  networkingEstimator : Estimator;
  memoryEstimator : Estimator;
  unknownEstimator : Estimator;
  embodiedEmissionsEstimator : Estimator;
  consumptionManagementClient : option ManagementClient
}.

Record AdvisorRecommendations := {
  advisor_computeEstimator : Estimator;
  advisor_memoryEstimator : Estimator;
  advisorManagementClient : ManagementClient
}.

(** Modelled from the spec: [ConsumptionManagementService] and its method
    [getEstimatesFromInputData] are defined in [../lib/ConsumptionManagement],
    outside these sources.  The spec (section 6) gives the estimation engine
    as pure functions from rows and coefficients to results: the method is a
    function of the service's estimators and of the input rows, and of
    nothing else. *)
Record EstimationEngine := {
  estimate_rows :
    list Estimator → list LookupTableInput → list LookupTableOutput
}.

Definition service_getEstimatesFromInputData (engine : EstimationEngine)
    (service : ConsumptionManagementService)
    (inputData : list LookupTableInput) : list LookupTableOutput :=
  estimate_rows engine
    [computeEstimator service; ssdStorageEstimator service;
     hddStorageEstimator service; networkingEstimator service;
     memoryEstimator service; unknownEstimator service;
     embodiedEmissionsEstimator service]
    inputData.

(** ** The collaborators *)

Record World := {
  (* AzureCredentialsProvider.create() *)
  AzureCredentialsProvider_create : settled Credential;
  (* new SubscriptionClient(credentials) *)
  new_SubscriptionClient : option Credential → settled SubscriptionClient;
  (* subscriptionClient.subscriptions.list() *)
  subscriptions_list : SubscriptionClient → paged;
  (* consumptionManagementService.getEstimates(startDate, endDate, grouping) *)
  service_getEstimates :
    ConsumptionManagementService → Date → Date → GroupBy →
    settled (list EstimationResult);
  (* advisorRecommendations.getRecommendations() *)
  advisor_getRecommendations :
    AdvisorRecommendations → settled (list RecommendationResult);
  (* the estimation engine behind getEstimatesFromInputData *)
  estimationEngine : EstimationEngine;
  AZURE_CLOUD_CONSTANTS : CloudConstants;
  (* configLoader().AZURE *)
  configLoader_AZURE : AzureConfig;
  (* which of the pending promises settles next, given all that happened *)
  completion : list event → nat
}.

Variable w : World.

(** ** Promises *)

(** What is left of an [async] call once its awaited upstream query has
    settled. *)
Definition Promise (A : Type) : Type := M state A.

(** [await call()] with nothing else in flight: the caller resumes when the
    promise has settled. *)
Definition await {A} (call : M state (Promise A)) : M state A :=
  let* promise := call in promise.

(** The body [async () => { try { ...; return await query } catch (e) {
    handler } }].  A throw of the synchronous prefix is handled on the spot,
    a rejection of the awaited query once it has settled. *)
Definition try_async {A} (body : M state (Promise A))
    (handler : Error → M state A) : M state (Promise A) :=
  λ st,
    match body st with
    | (Fulfilled promise, st') => (Fulfilled (try_catch promise handler), st')
    | (Rejected e, st') => (Fulfilled (settle (handler e st').1), (handler e st').2)
    end.

(** [calls.map(async (call) => call())]: every synchronous prefix runs, in
    array order, before anything settles. *)
Fixpoint issue_all {A} (calls : list (M state (Promise A)))
    : M state (list (Promise A)) :=
  match calls with
  | [] => ret []
  | call :: calls' =>
      let* promise := call in
      let* promises := issue_all calls' in
      ret (promise :: promises)
  end.

(** The pending promise that settles next, and those that stay pending. *)
Definition pick {A} (choice : nat) (pending : list A) : option (A * list A) :=
  let i := choice `mod` length pending in
  match pending !! i with
  | Some p => Some (p, delete i pending)
  | None => None
  end.

(** The reactions of [Promise.all]: whenever a promise fulfils, its value is
    stored at the promise's index; the first rejection rejects the whole.
    [n] counts the promises still pending. *)
Fixpoint settle_all {A} (n : nat) (pending : list (nat * Promise A))
    (values : list (option A)) : M state (list (option A)) :=
  match n with
  | 0 => ret values
  | S n' =>
      λ st,
        match pick (completion w (history st)) pending with
        | None => (Fulfilled values, st)
        | Some ((index, promise), pending') =>
            match promise st with
            | (Fulfilled value, st') =>
                settle_all n' pending' (<[index := Some value]> values) st'
            | (Rejected e, st') => (Rejected e, st')
            end
        end
  end.

(** [await Promise.all(promises)] *)
Definition Promise_all {A} (promises : list (Promise A)) : M state (list A) :=
  let n := length promises in
  let* values := settle_all n (zip (seq 0 n) promises) (replicate n None) in
  ret (omap id values).

(** ** The facade *)

Definition initializeAccount : M state unit :=
  try_catch
    (let* credential := settle (AzureCredentialsProvider_create w) in
     let* self := read_this in
     write_this {| credentials := Some credential;
                   subscriptionClient := subscriptionClient self |};;
     let* self := read_this in
     let* client := settle (new_SubscriptionClient w (credentials self)) in
     write_this {| credentials := credentials self;
                   subscriptionClient := Some client |})
    (λ e, throw {| message :=
       "Azure initializeAccount failed. Reason: " +:+ message e |}).

(** [for await (const subscription of pages) subscriptions.push(subscription)] *)
Fixpoint for_await (pages : paged) (subscriptions : list Subscription)
    : M state (list Subscription) :=
  match pages with
  | Done => ret subscriptions
  | Yield subscription rest => for_await rest (subscriptions ++ [subscription])
  | Throw e => throw e
  end.

Definition no_subscription_warning : string :=
  "No subscription returned for these Azure credentials, be sure the registered application has "
  +:+ "enough permissions. Go to https://www.cloudcarbonfootprint.org/docs/azure/ for more information.".

Definition getSubscriptions : M state (list Subscription) :=
  let* self := read_this in
  match subscriptionClient self with
  | None =>
      throw {| message :=
        "Cannot read properties of undefined (reading 'subscriptions')" |}
  | Some client =>
      let* subscriptions := for_await (subscriptions_list w client) [] in
      (if length subscriptions =? 0
       then emit (Log Warn no_subscription_warning)
       else ret tt);;
      ret subscriptions
  end.

Definition getDataFromConsumptionManagementInputData
    (inputData : list LookupTableInput) : list LookupTableOutput :=
  let consumptionManagementService := {|
    computeEstimator := ComputeEstimator;
    ssdStorageEstimator := StorageEstimator (SSDCOEFFICIENT (AZURE_CLOUD_CONSTANTS w));
    hddStorageEstimator := StorageEstimator (HDDCOEFFICIENT (AZURE_CLOUD_CONSTANTS w));
    networkingEstimator :=
      NetworkingEstimator (NETWORKING_COEFFICIENT (AZURE_CLOUD_CONSTANTS w));
    memoryEstimator := MemoryEstimator (MEMORY_COEFFICIENT (AZURE_CLOUD_CONSTANTS w));
    unknownEstimator :=
      UnknownEstimator (ESTIMATE_UNKNOWN_USAGE_BY (AZURE_CLOUD_CONSTANTS w));
    embodiedEmissionsEstimator :=
      EmbodiedEmissionsEstimator (SERVER_EXPECTED_LIFESPAN (AZURE_CLOUD_CONSTANTS w));
    consumptionManagementClient := None
  |} in
  service_getEstimatesFromInputData (estimationEngine w)
    consumptionManagementService inputData.

Definition getRecommendationsForSubscription (subscriptionId : string)
    : M state (Promise (list RecommendationResult)) :=
  let* self := read_this in
  let advisorRecommendations := {|
    advisor_computeEstimator := ComputeEstimator;
    advisor_memoryEstimator :=
      MemoryEstimator (MEMORY_COEFFICIENT (AZURE_CLOUD_CONSTANTS w));
    advisorManagementClient := {|
      client_credentials := credentials self;
      client_subscriptionId := subscriptionId
    |}
  |} in
  emit (Issued subscriptionId);;
  ret (emit (Resolved subscriptionId);;
       settle (advisor_getRecommendations w advisorRecommendations)).

Definition getDataForSubscription (startDate endDate : Date)
    (subscriptionId : string) (grouping : GroupBy)
    : M state (Promise (list EstimationResult)) :=
  let* self := read_this in
  let consumptionManagementService := {|
    computeEstimator := ComputeEstimator;
    ssdStorageEstimator := StorageEstimator (SSDCOEFFICIENT (AZURE_CLOUD_CONSTANTS w));
    hddStorageEstimator := StorageEstimator (HDDCOEFFICIENT (AZURE_CLOUD_CONSTANTS w));
    networkingEstimator :=
      NetworkingEstimator (NETWORKING_COEFFICIENT (AZURE_CLOUD_CONSTANTS w));
    memoryEstimator := MemoryEstimator (MEMORY_COEFFICIENT (AZURE_CLOUD_CONSTANTS w));
    unknownEstimator :=
      UnknownEstimator (ESTIMATE_UNKNOWN_USAGE_BY (AZURE_CLOUD_CONSTANTS w));
    embodiedEmissionsEstimator :=
      EmbodiedEmissionsEstimator (SERVER_EXPECTED_LIFESPAN (AZURE_CLOUD_CONSTANTS w));
    consumptionManagementClient := Some {|
      client_credentials := credentials self;
      client_subscriptionId := subscriptionId
    |}
  |} in
  emit (Issued subscriptionId);;
  ret (emit (Resolved subscriptionId);;
       settle (service_getEstimates w consumptionManagementService
                 startDate endDate grouping)).

(** The arrow function [async () => { try { ... } catch (e) { ... } }] that
    [createSubscriptionRequests] returns for [subscription]. *)
Definition subscriptionRequest (startDate endDate : Date) (grouping : GroupBy)
    (subscription : Subscription) : M state (Promise (list EstimationResult)) :=
  try_async
    (emit (Log Info ("Getting data for " +:+ displayName subscription +:+ "..."));;
     getDataForSubscription startDate endDate
       (subscriptionId subscription) grouping)
    (λ e,
       emit (Log Warn ("Unable to get estimate data for Azure subscription "
                       +:+ subscriptionId subscription +:+ ": " +:+ message e));;
       ret []).

Definition createSubscriptionRequests (subscriptions : list Subscription)
    (startDate endDate : Date) (grouping : GroupBy)
    : list (M state (Promise (list EstimationResult))) :=
  subscriptionRequest startDate endDate grouping <$> subscriptions.

(** The arrow function [async (subscription) => { try { ... } catch (e) {
    ... } }] that [getDataFromAdvisorManagement] maps over the subscriptions. *)
Definition recommendationsRequest (subscription : Subscription)
    : M state (Promise (list RecommendationResult)) :=
  try_async
    (getRecommendationsForSubscription (subscriptionId subscription))
    (λ e,
       emit (Log Warn
         ("Unable to get Advisor recommendations data for Azure subscription "
          +:+ subscriptionId subscription +:+ ": " +:+ message e));;
       ret []).

Definition getDataFromAdvisorManagement : M state (list RecommendationResult) :=
  let* subscriptions := getSubscriptions in
  let* promises := issue_all (recommendationsRequest <$> subscriptions) in
  let* recommendations := Promise_all promises in
  ret (flat recommendations).

(** [for (const request of requests) estimationResults.push(await request())] *)
Fixpoint one_by_one {A} (requests : list (M state (Promise A)))
    : M state (list A) :=
  match requests with
  | [] => ret []
  | request :: requests' =>
      let* result := await request in
      let* results := one_by_one requests' in
      ret (result :: results)
  end.

(** [for (const requests of chunkedRequests)
       estimationResults.push(await Promise.all(requests.map(...)))] *)
Fixpoint chunk_by_chunk {A} (chunkedRequests : list (list (M state (Promise A))))
    : M state (list (list A)) :=
  match chunkedRequests with
  | [] => ret []
  | requests :: chunks' =>
      let* promises := issue_all requests in
      let* results := Promise_all promises in
      let* remaining := chunk_by_chunk chunks' in
      ret (results :: remaining)
  end.

Definition getDataFromConsumptionManagement (startDate endDate : Date)
    (grouping : GroupBy) : M state (list EstimationResult) :=
  let* subscriptions := getSubscriptions in
  let AZURE := configLoader_AZURE w in
  let requests :=
    createSubscriptionRequests subscriptions startDate endDate grouping in
  if CONSUMPTION_CHUNKS_DAYS AZURE then
    let* estimationResults := one_by_one requests in
    ret (flat estimationResults)
  else
    let* chunkedRequests :=
      match SUBSCRIPTION_CHUNKS AZURE with
      | Some chunks => settle (R_splitEvery (Z.pos chunks) requests)
      | None => ret [requests]
      end in
    emit (Log Debug ("Fetching Azure consumption data with "
                     +:+ template_number (SUBSCRIPTION_CHUNKS AZURE)
                     +:+ "} 1} chunk(s)"));;
    emit (ConsoleTime ("Azure Subscriptions: "
                       +:+ template_number (SUBSCRIPTION_CHUNKS AZURE)
                       +:+ " chunk(s)"));;
    let* estimationResults := chunk_by_chunk chunkedRequests in
    emit (ConsoleTimeEnd ("Azure Subscriptions: "
                          +:+ template_number (or_one (SUBSCRIPTION_CHUNKS AZURE))
                          +:+ " chunk(s)"));;
    ret (R_flatten
           (map (λ results, Arr (map (λ result, Arr (map Leaf result)) results))
              estimationResults)).

End Facade.

(** ** A concrete deployment

    Every opaque type is a string or a number.  The subscription with id
    ["B"] is throttled by both upstream services; every other subscription
    has two estimates and one recommendation. *)

Definition demo_estimates (id : string) : settled (list string) :=
  if String.eqb id "B"
  then Rejected {| message := "429 Too Many Requests" |}
  else Fulfilled [id +:+ "/compute"; id +:+ "/storage"].

Definition demo_recommendations (id : string) : settled (list string) :=
  if String.eqb id "B"
  then Rejected {| message := "429 Too Many Requests" |}
  else Fulfilled [id +:+ "/rightsize"].

Definition demo_world (create : settled string) (pages : paged)
    (AZURE : AzureConfig) (order : list event → nat)
    : @World string string Z string string string string string Z := {|
  AzureCredentialsProvider_create := create;
  new_SubscriptionClient := λ credential,
    match credential with
    | Some c => Fulfilled ("client of " +:+ c)
    | None => Rejected {| message := "credential is required" |}
    end;
  subscriptions_list := λ _, pages;
  service_getEstimates := λ service _ _ _,
    match consumptionManagementClient service with
    | Some client => demo_estimates (client_subscriptionId client)
    | None => Rejected {| message := "no client" |}
    end;
  advisor_getRecommendations := λ advisor,
    demo_recommendations (client_subscriptionId (advisorManagementClient advisor));
  estimationEngine := {| estimate_rows := λ estimators rows,
    (λ row, row +:+ pretty (length estimators)) <$> rows |};
  AZURE_CLOUD_CONSTANTS := {|
    SSDCOEFFICIENT := 12; HDDCOEFFICIENT := 65; NETWORKING_COEFFICIENT := 1;
    MEMORY_COEFFICIENT := 392; ESTIMATE_UNKNOWN_USAGE_BY := 0;
    SERVER_EXPECTED_LIFESPAN := 35040 |}%Z;
  configLoader_AZURE := AZURE;
  completion := order
|}.

Definition sub (id : string) : Subscription :=
  {| subscriptionId := id; displayName := "Subscription " +:+ id |}.

Fixpoint pages_of (subscriptions : list Subscription) : paged :=
  match subscriptions with
  | [] => Done
  | s :: rest => Yield s (pages_of rest)
  end.

(** A facade on which [initializeAccount] has run. *)
Definition ready : @state string string :=
  {| this := {| credentials := Some "secret";
                subscriptionClient := Some "client of secret" |};
     history := [] |}.

(** The facade right after [new AzureAccount()]. *)
Definition fresh : @state string string :=
  {| this := {| credentials := None; subscriptionClient := None |};
     history := [] |}.

(** Completion orders: the oldest pending promise first, or one that moves
    with the history. *)
Definition oldest_first : list event → nat := λ _, 0.
Definition shuffled : list event → nat := λ h, 3 * length h + 1.

Definition chunk_by_day : AzureConfig :=
  {| CONSUMPTION_CHUNKS_DAYS := true; SUBSCRIPTION_CHUNKS := Some 2%positive |}.
Definition chunks_of_two : AzureConfig :=
  {| CONSUMPTION_CHUNKS_DAYS := false; SUBSCRIPTION_CHUNKS := Some 2%positive |}.
Definition chunks_unset : AzureConfig :=
  {| CONSUMPTION_CHUNKS_DAYS := false; SUBSCRIPTION_CHUNKS := None |}.

Definition three : list Subscription := [sub "A"; sub "B"; sub "C"].
Definition five : list Subscription :=
  [sub "A"; sub "B"; sub "C"; sub "D"; sub "E"].

(** The deployment used below: the credential is granted, [subscriptions]
    are listed. *)
Definition deployment (subscriptions : list Subscription) (AZURE : AzureConfig)
    (order : list event → nat) :=
  demo_world (Fulfilled "secret") (pages_of subscriptions) AZURE order.

(** ** What the operations are expected to do *)

Section Expected.

Context {Credential SubscriptionClient Date GroupBy : Type}.
Context {EstimationResult RecommendationResult : Type}.
Context {LookupTableInput LookupTableOutput Coefficient : Type}.

Abbreviation state' := (@state Credential SubscriptionClient).
Abbreviation AzureAccount' := (@AzureAccount Credential SubscriptionClient).
Abbreviation World' :=
  (@World Credential SubscriptionClient Date GroupBy EstimationResult
     RecommendationResult LookupTableInput LookupTableOutput Coefficient).

(** [p] fulfils with [a] from every state, adding [evs] to the history and
    leaving the facade's fields alone. *)
Definition yields {A} (p : M state' A) (a : A) (evs : list event) : Prop :=
  ∀ st, p st = (Fulfilled a, add_events evs st).

(** What a rejection caught at the task boundary turns into. *)
Definition absorbed {A} (o : settled (list A)) : list A :=
  match o with
  | Fulfilled results => results
  | Rejected _ => []
  end.

(** The values of the promises of [done] stored at their indices, in the
    order of [done]. *)
Definition store {X A} (value : X → A) (values : list (option A))
    (done : list (nat * X)) : list (option A) :=
  foldl (λ vs ix, <[ix.1 := Some (value ix.2)]> vs) values done.

(** The outcome of the consumption query of one subscription, fetched on its
    own by a facade with fields [acct]. *)
Definition estimates_query (w : World') (acct : AzureAccount')
    (startDate endDate : Date) (grouping : GroupBy) (s : Subscription)
    : settled (list EstimationResult) :=
  (await (getDataForSubscription w startDate endDate (subscriptionId s) grouping)
     {| this := acct; history := [] |}).1.

(** The outcome of the advisor query of one subscription. *)
Definition recommendations_query (w : World') (acct : AzureAccount')
    (s : Subscription) : settled (list RecommendationResult) :=
  (await (getRecommendationsForSubscription w (subscriptionId s))
     {| this := acct; history := [] |}).1.

(** The warning a failed query leaves in the log. *)
Definition warning_of {A} (prefix : string) (s : Subscription) (o : settled A)
    : list event :=
  match o with
  | Fulfilled _ => []
  | Rejected e =>
      [Log Warn (prefix +:+ subscriptionId s +:+ ": " +:+ message e)]
  end.

Definition estimates_issued (s : Subscription) : list event :=
  [Log Info ("Getting data for " +:+ displayName s +:+ "...");
   Issued (subscriptionId s)].

Definition estimates_settled (w : World') (acct : AzureAccount')
    (startDate endDate : Date) (grouping : GroupBy) (s : Subscription)
    : list event :=
  Resolved (subscriptionId s)
  :: warning_of "Unable to get estimate data for Azure subscription " s
       (estimates_query w acct startDate endDate grouping s).

Definition recommendations_issued (s : Subscription) : list event :=
  [Issued (subscriptionId s)].

Definition recommendations_settled (w : World') (acct : AzureAccount')
    (s : Subscription) : list event :=
  Resolved (subscriptionId s)
  :: warning_of "Unable to get Advisor recommendations data for Azure subscription "
       s (recommendations_query w acct s).

(** The upstream trace of one batch: every query of [chunk] is issued, in
    order, and then they settle in the order [settling]. *)
Definition batch_trace (chunk settling : list Subscription) : list event :=
  (Issued ∘ subscriptionId <$> chunk) ++ (Resolved ∘ subscriptionId <$> settling).

(** The batches the scheduler forms when it does not chunk by day. *)
Definition batches_of {X} (AZURE : AzureConfig) (xs : list X) : list (list X) :=
  match SUBSCRIPTION_CHUNKS AZURE with
  | Some chunks => splitEvery_while (length xs) (Pos.to_nat chunks) 0 xs
  | None => [xs]
  end.

(** What one subscription contributes to the estimates. *)
Definition estimates_of (w : World') (acct : AzureAccount')
    (startDate endDate : Date) (grouping : GroupBy) (s : Subscription)
    : list EstimationResult :=
  absorbed (estimates_query w acct startDate endDate grouping s).

(** What one subscription contributes to the recommendations. *)
Definition recommendations_of (w : World') (acct : AzureAccount')
    (s : Subscription) : list RecommendationResult :=
  absorbed (recommendations_query w acct s).

(** The three lines [getDataFromConsumptionManagement] writes around its
    batches. *)
Definition debug_line (AZURE : AzureConfig) : event :=
  Log Debug ("Fetching Azure consumption data with "
             +:+ template_number (SUBSCRIPTION_CHUNKS AZURE) +:+ "} 1} chunk(s)").

Definition timer_start (AZURE : AzureConfig) : event :=
  ConsoleTime ("Azure Subscriptions: "
               +:+ template_number (SUBSCRIPTION_CHUNKS AZURE) +:+ " chunk(s)").

Definition timer_end (AZURE : AzureConfig) : event :=
  ConsoleTimeEnd ("Azure Subscriptions: "
                  +:+ template_number (or_one (SUBSCRIPTION_CHUNKS AZURE))
                  +:+ " chunk(s)").

(** The debug line the spec intends: the configured batch size, or 1 when
    there is none, as [console.timeEnd] has it. *)
Definition intended_debug_line (AZURE : AzureConfig) : event :=
  Log Debug ("Fetching Azure consumption data with "
             +:+ template_number (or_one (SUBSCRIPTION_CHUNKS AZURE))
             +:+ " chunk(s)").

(** The same collaborators, with another completion order. *)
Definition with_completion (w : World') (order : list event → nat) : World' :=
  {| AzureCredentialsProvider_create := AzureCredentialsProvider_create w;
     new_SubscriptionClient := new_SubscriptionClient w;
     subscriptions_list := subscriptions_list w;
     service_getEstimates := service_getEstimates w;
     advisor_getRecommendations := advisor_getRecommendations w;
     estimationEngine := estimationEngine w;
     AZURE_CLOUD_CONSTANTS := AZURE_CLOUD_CONSTANTS w;
     configLoader_AZURE := configLoader_AZURE w;
     completion := order |}.

(** The public operations a caller may invoke on an initialized facade. *)
Inductive operation :=
  | GetSubscriptions
  | GetDataFromAdvisorManagement
  | GetDataFromConsumptionManagement (startDate endDate : Date) (grouping : GroupBy).

Definition run_operation (w : World') (op : operation) (st : state') : state' :=
  match op with
  | GetSubscriptions => (getSubscriptions w st).2
  | GetDataFromAdvisorManagement => (getDataFromAdvisorManagement w st).2
  | GetDataFromConsumptionManagement startDate endDate grouping =>
      (getDataFromConsumptionManagement w startDate endDate grouping st).2
  end.

(** A caller's session: the operations run one after the other, whether they
    succeed or not. *)
Definition run_operations (w : World') (ops : list operation) (st : state')
    : state' :=
  foldl (λ st op, run_operation w op st) st ops.

End Expected.

(** ** Further observations on the history *)

Definition is_warn (e : event) : bool :=
  match e with
  | Log Warn _ => true
  | _ => false
  end.

(** The lines written at warn level. *)
Definition warn_lines (evs : list event) : list event :=
  List.filter is_warn evs.

Definition is_info (e : event) : bool :=
  match e with
  | Log Info _ => true
  | _ => false
  end.

(** The lines written at info level. *)
Definition info_lines (evs : list event) : list event :=
  List.filter is_info evs.

Definition is_timer (e : event) : bool :=
  match e with
  | ConsoleTime _ | ConsoleTimeEnd _ => true
  | _ => false
  end.

(** The calls of [console.time] and [console.timeEnd]. *)
Definition timers (evs : list event) : list event :=
  List.filter is_timer evs.

(** The subscriptions whose queries were issued, in the order of issue. *)
Definition issued_ids (evs : list event) : list string :=
  omap (λ e, match e with Issued id => Some id | _ => None end) evs.

(** The subscriptions whose queries settled, in the order of settling. *)
Definition resolved_ids (evs : list event) : list string :=
  omap (λ e, match e with Resolved id => Some id | _ => None end) evs.

(** What [for await] makes of the pages: all the subscriptions yielded, in
    the order of the pages, unless the iterator throws. *)
Fixpoint listing_outcome (pages : paged) : settled (list Subscription) :=
  match pages with
  | Done => Fulfilled []
  | Yield subscription rest =>
      match listing_outcome rest with
      | Fulfilled subscriptions => Fulfilled (subscription :: subscriptions)
      | Rejected e => Rejected e
      end
  | Throw e => Rejected e
  end.

(** The warning [getSubscriptions] adds for [subscriptions]. *)
Definition listing_warning (subscriptions : list Subscription) : list event :=
  if length subscriptions =? 0 then [Log Warn no_subscription_warning] else [].

(** Two more configurations and a listing that fails on its second page. *)
Definition chunks_of_one : AzureConfig :=
  {| CONSUMPTION_CHUNKS_DAYS := false; SUBSCRIPTION_CHUNKS := Some 1%positive |}.
Definition chunk_by_day_only : AzureConfig :=
  {| CONSUMPTION_CHUNKS_DAYS := true; SUBSCRIPTION_CHUNKS := None |}.
Definition broken_pages : paged :=
  Yield (sub "A") (Throw {| message := "503 Service Unavailable" |}).

Section Reconfigured.

Context {Credential SubscriptionClient Date GroupBy : Type}.
Context {EstimationResult RecommendationResult : Type}.
Context {LookupTableInput LookupTableOutput Coefficient : Type}.

(** The same upstream services under another configuration and another
    completion order. *)
Definition reconfigure
    (w : @World Credential SubscriptionClient Date GroupBy EstimationResult
           RecommendationResult LookupTableInput LookupTableOutput Coefficient)
    (AZURE : AzureConfig) (order : list event → nat)
    : @World Credential SubscriptionClient Date GroupBy EstimationResult
        RecommendationResult LookupTableInput LookupTableOutput Coefficient :=
  {| AzureCredentialsProvider_create := AzureCredentialsProvider_create w;
     new_SubscriptionClient := new_SubscriptionClient w;
     subscriptions_list := subscriptions_list w;
     service_getEstimates := service_getEstimates w;
     advisor_getRecommendations := advisor_getRecommendations w;
     estimationEngine := estimationEngine w;
     AZURE_CLOUD_CONSTANTS := AZURE_CLOUD_CONSTANTS w;
     configLoader_AZURE := AZURE;
     completion := order |}.

(** Everything [getDataFromConsumptionManagement] adds to the history once
    the subscriptions are listed, the batches settling in the orders
    [settlings]. *)
Definition consumption_events
    (w : @World Credential SubscriptionClient Date GroupBy EstimationResult
           RecommendationResult LookupTableInput LookupTableOutput Coefficient)
    (acct : @AzureAccount Credential SubscriptionClient)
    (startDate endDate : Date) (grouping : GroupBy)
    (subscriptions : list Subscription) (settlings : list (list Subscription))
    : list event :=
  if CONSUMPTION_CHUNKS_DAYS (configLoader_AZURE w) then
    flat_map
      (λ s, estimates_issued s
            ++ estimates_settled w acct startDate endDate grouping s)
      subscriptions
  else
    [debug_line (configLoader_AZURE w); timer_start (configLoader_AZURE w)]
    ++ concat (zip_with
         (λ chunk settling,
            flat_map estimates_issued chunk
            ++ flat_map (estimates_settled w acct startDate endDate grouping)
                 settling)
         (batches_of (configLoader_AZURE w) subscriptions) settlings)
    ++ [timer_end (configLoader_AZURE w)].

(** The service [getDataForSubscription] is to construct for the subscription
    [subscriptionId] on a facade holding [credential]: the seven estimators
    over [AZURE_CLOUD_CONSTANTS] and a [ConsumptionManagementClient] made of
    that credential and that subscription id. *)
Definition queried_service
    (w : @World Credential SubscriptionClient Date GroupBy EstimationResult
           RecommendationResult LookupTableInput LookupTableOutput Coefficient)
    (credential : option Credential) (subscriptionId : string)
    : @ConsumptionManagementService Credential Coefficient :=
  {| computeEstimator := ComputeEstimator;
     ssdStorageEstimator := StorageEstimator (SSDCOEFFICIENT (AZURE_CLOUD_CONSTANTS w));
     hddStorageEstimator := StorageEstimator (HDDCOEFFICIENT (AZURE_CLOUD_CONSTANTS w));
     networkingEstimator :=
       NetworkingEstimator (NETWORKING_COEFFICIENT (AZURE_CLOUD_CONSTANTS w));
     memoryEstimator := MemoryEstimator (MEMORY_COEFFICIENT (AZURE_CLOUD_CONSTANTS w));
     unknownEstimator :=
       UnknownEstimator (ESTIMATE_UNKNOWN_USAGE_BY (AZURE_CLOUD_CONSTANTS w));
     embodiedEmissionsEstimator :=
       EmbodiedEmissionsEstimator (SERVER_EXPECTED_LIFESPAN (AZURE_CLOUD_CONSTANTS w));
     consumptionManagementClient :=
       Some {| client_credentials := credential;
               client_subscriptionId := subscriptionId |} |}.

End Reconfigured.

(** A deployment that tells credentials apart: the provider grants
    ["renewed"]; the subscriptions are listed for the client of that
    credential only; and the consumption service answers a client that
    presents it, naming the credential in every estimate, and refuses any
    other with a 401, the subscription ["B"] staying throttled. *)
Definition guarded_world (AZURE : AzureConfig) (order : list event → nat)
    : @World string string Z string string string string string Z := {|
  AzureCredentialsProvider_create := Fulfilled "renewed";
  new_SubscriptionClient := λ credential,
    match credential with
    | Some c => Fulfilled ("client of " +:+ c)
    | None => Rejected {| message := "credential is required" |}
    end;
  subscriptions_list := λ client,
    if String.eqb client "client of renewed"
    then pages_of three
    else Throw {| message := "403 Forbidden" |};
  service_getEstimates := λ service _ _ _,
    match consumptionManagementClient service with
    | Some client =>
        match client_credentials client with
        | Some c =>
            if String.eqb c "renewed"
            then
              if String.eqb (client_subscriptionId client) "B"
              then Rejected {| message := "429 Too Many Requests" |}
              else Fulfilled [client_subscriptionId client +:+ " as " +:+ c]
            else Rejected {| message := "401 Unauthorized" |}
        | None => Rejected {| message := "401 Unauthorized" |}
        end
    | None => Rejected {| message := "no client" |}
    end;
  advisor_getRecommendations := λ advisor,
    demo_recommendations (client_subscriptionId (advisorManagementClient advisor));
  estimationEngine := {| estimate_rows := λ estimators rows, rows |};
  AZURE_CLOUD_CONSTANTS := {|
    SSDCOEFFICIENT := 12; HDDCOEFFICIENT := 65; NETWORKING_COEFFICIENT := 1;
    MEMORY_COEFFICIENT := 392; ESTIMATE_UNKNOWN_USAGE_BY := 0;
    SERVER_EXPECTED_LIFESPAN := 35040 |}%Z;
  configLoader_AZURE := AZURE;
  completion := order
|}.

(** A facade initialized long ago, whose credential has expired since. *)
Definition stale : @state string string :=
  {| this := {| credentials := Some "expired";
                subscriptionClient := Some "client of expired" |};
     history := [Log Warn "token expired"] |}.

(** * Properties *)

(** ** Arrays *)

Lemma flatten_results {A} (estimationResults : list (list (list A))) :
  R_flatten
    (map (λ results, Arr (map (λ result, Arr (map Leaf result)) results))
       estimationResults)
  = concat (concat estimationResults).
Proof.
  assert (leaves : ∀ result : list A, flat_map flatten_item (map Leaf result) = result).
  { induction result as [|a result IH]; simpl; [done | by rewrite IH]. }
  assert (rows : ∀ results : list (list A),
    flat_map flatten_item (map (λ result, Arr (map Leaf result)) results)
    = concat results).
  { induction results as [|r results IH]; simpl; [done | by rewrite leaves, IH]. }
  unfold R_flatten.
  induction estimationResults as [|b bs IH]; simpl; [done |].
  by rewrite rows, IH, concat_app.
Qed.

Lemma splitEvery_while_map {A B} (f : A → B) fuel n idx (l : list A) :
  splitEvery_while fuel n idx (f <$> l)
  = fmap (M := list) f <$> splitEvery_while fuel n idx l.
Proof.
  revert idx. induction fuel as [|fuel IH]; intros idx; simpl; [done |].
  rewrite length_fmap. destruct (idx <? length l); [|done].
  simpl. rewrite IH. f_equal.
  unfold slice. by rewrite fmap_take, fmap_drop.
Qed.

Lemma splitEvery_while_concat {A} fuel n idx (l : list A) :
  0 < n → length l - idx ≤ fuel →
  concat (splitEvery_while fuel n idx l) = drop idx l.
Proof.
  intros Hn. revert idx. induction fuel as [|fuel IH]; intros idx Hfuel; simpl.
  - symmetry. apply drop_ge. lia.
  - destruct (idx <? length l) eqn:Hlt.
    + apply Nat.ltb_lt in Hlt. simpl. rewrite IH by lia.
      unfold slice. replace (idx + n - idx) with n by lia.
      rewrite <- drop_drop. apply take_drop.
    + apply Nat.ltb_ge in Hlt. symmetry. by apply drop_ge.
Qed.

Lemma splitEvery_while_sizes {A} fuel n idx (l : list A) :
  0 < n → length l - idx ≤ fuel →
  length <$> splitEvery_while fuel n idx l
  = replicate ((length l - idx) `div` n) n
    ++ (if (length l - idx) `mod` n =? 0 then [] else [(length l - idx) `mod` n]).
Proof.
  intros Hn. revert idx. induction fuel as [|fuel IH]; intros idx Hfuel; simpl.
  - replace (length l - idx) with 0 by lia.
    rewrite Nat.Div0.div_0_l, Nat.Div0.mod_0_l. done.
  - destruct (idx <? length l) eqn:Hlt.
    + apply Nat.ltb_lt in Hlt. simpl. rewrite IH by lia.
      unfold slice. replace (idx + n - idx) with n by lia.
      rewrite length_take, length_drop.
      destruct (decide (n ≤ length l - idx)) as [Hle|Hgt].
      * assert (E : length l - idx = (length l - (idx + n)) + 1 * n) by lia.
        rewrite E, Nat.div_add, Nat.Div0.mod_add by lia.
        rewrite <- E. rewrite Nat.min_l by lia.
        rewrite Nat.add_1_r. done.
      * replace (length l - (idx + n)) with 0 by lia.
        rewrite Nat.Div0.div_0_l, Nat.Div0.mod_0_l. simpl.
        rewrite Nat.div_small, Nat.mod_small by lia. simpl.
        rewrite Nat.min_r by lia.
        destruct (length l - idx =? 0) eqn:E; [apply Nat.eqb_eq in E; lia | done].
    + apply Nat.ltb_ge in Hlt. replace (length l - idx) with 0 by lia.
      rewrite Nat.Div0.div_0_l, Nat.Div0.mod_0_l. done.
Qed.

(** ** Computations that always fulfil *)

Section Behaviour.

Context {Credential SubscriptionClient Date GroupBy : Type}.
Context {EstimationResult RecommendationResult : Type}.
Context {LookupTableInput LookupTableOutput Coefficient : Type}.

Abbreviation state := (@state Credential SubscriptionClient).
Abbreviation AzureAccount := (@AzureAccount Credential SubscriptionClient).
Abbreviation Promise := (@Promise Credential SubscriptionClient).
Abbreviation World :=
  (@World Credential SubscriptionClient Date GroupBy EstimationResult
     RecommendationResult LookupTableInput LookupTableOutput Coefficient).

Implicit Types (st : state) (acct : AzureAccount) (evs : list event) (w : World).

Lemma add_events_nil st : add_events [] st = st.
Proof. destruct st. unfold add_events. simpl. by rewrite app_nil_r. Qed.

Lemma add_events_app evs1 evs2 st :
  add_events evs2 (add_events evs1 st) = add_events (evs1 ++ evs2) st.
Proof. unfold add_events. simpl. by rewrite app_assoc. Qed.

Lemma bind_fulfilled {A B} (m : M state A) (k : A → M state B) a st st' :
  m st = (Fulfilled a, st') → bind m k st = k a st'.
Proof. intros H. unfold bind. by rewrite H. Qed.

Lemma bind_rejected {A B} (m : M state A) (k : A → M state B) e st st' :
  m st = (Rejected e, st') → bind m k st = (Rejected e, st').
Proof. intros H. unfold bind. by rewrite H. Qed.

Lemma pick_Some {B} choice (pending : list B) :
  pending ≠ [] →
  ∃ i p, pending !! i = Some p ∧ pick choice pending = Some (p, delete i pending).
Proof.
  intros Hne. unfold pick.
  assert (Hlt : choice `mod` length pending < length pending).
  { apply Nat.mod_upper_bound. destruct pending; [done | simpl; lia]. }
  destruct (lookup_lt_is_Some_2 _ _ Hlt) as [p Hp].
  exists (choice `mod` length pending), p. by rewrite Hp.
Qed.

(** ** Values stored by index *)

Lemma store_cons {X A} (value : X → A) i x done values :
  store value values ((i, x) :: done)
  = store value (<[i := Some (value x)]> values) done.
Proof. done. Qed.

Lemma length_store {X A} (value : X → A) done : ∀ values,
  length (store value values done) = length values.
Proof.
  induction done as [|[i x] done IH]; intros values; [done |].
  by rewrite store_cons, IH, length_insert.
Qed.

Lemma lookup_store_other {X A} (value : X → A) done j : ∀ values,
  j ∉ done.*1 → store value values done !! j = values !! j.
Proof.
  induction done as [|[i x] done IH]; intros values Hj; [done |].
  rewrite fmap_cons in Hj. apply not_elem_of_cons in Hj as [Hne Hj].
  rewrite store_cons, IH by done.
  apply list_lookup_insert_ne. simpl in Hne. congruence.
Qed.

Lemma lookup_store_elem {X A} (value : X → A) done j x : ∀ values,
  NoDup done.*1 → (j, x) ∈ done → j < length values →
  store value values done !! j = Some (Some (value x)).
Proof.
  induction done as [|[i y] done IH]; intros values Hnd Hin Hlt.
  - by apply elem_of_nil in Hin.
  - rewrite fmap_cons in Hnd. apply NoDup_cons in Hnd as [Hfresh Hnd].
    rewrite store_cons. apply elem_of_cons in Hin as [Heq | Hin].
    + injection Heq as <- <-.
      rewrite lookup_store_other by done.
      by apply list_lookup_insert_eq.
    + apply IH; [done | done |]. by rewrite length_insert.
Qed.

(** Whatever the order in which the promises settle, the values end up in
    the order of the promises. *)
Lemma store_all {X A} (value : X → A) xs done :
  done ≡ₚ zip (seq 0 (length xs)) xs →
  store value (replicate (length xs) None) done = Some ∘ value <$> xs.
Proof.
  intros Hperm. apply list_eq. intros j.
  assert (Hfst : (zip (seq 0 (length xs)) xs).*1 = seq 0 (length xs)).
  { apply fst_zip. by rewrite length_seq. }
  destruct (xs !! j) as [x|] eqn:Hx.
  - rewrite list_lookup_fmap, Hx. simpl.
    apply lookup_store_elem.
    + rewrite Hperm, Hfst. apply NoDup_seq.
    + rewrite Hperm. apply list_elem_of_lookup. exists j.
      apply lookup_zip_with_Some. exists j, x. split; [done |]. split; [|done].
      apply lookup_seq. split; [done |]. by eapply lookup_lt_Some.
    + rewrite length_replicate. by eapply lookup_lt_Some.
  - rewrite list_lookup_fmap, Hx. simpl.
    apply lookup_ge_None. rewrite length_store, length_replicate.
    by apply lookup_ge_None.
Qed.

(** ** Batches of promises *)

Section Batch.

Context {X A : Type}.
Variable w : World.
Variable call : X → M state (Promise A).
Variable before : X → list event.
Variable value : AzureAccount → X → A.
Variable after : AzureAccount → X → list event.

(** A call issues [before x]; its promise yields [value x] after
    [after x], whatever ran in between. *)
Hypothesis call_spec : ∀ x st, ∃ p,
  call x st = (Fulfilled p, add_events (before x) st)
  ∧ yields p (value (this st) x) (after (this st) x).

Lemma issue_all_spec xs st : ∃ ps,
  issue_all (call <$> xs) st
    = (Fulfilled ps, add_events (flat_map before xs) st)
  ∧ Forall2 (λ p x, yields p (value (this st) x) (after (this st) x)) ps xs.
Proof.
  revert st. induction xs as [|x xs IH]; intros st.
  - exists []. split; [|constructor]. simpl. unfold ret.
    by rewrite add_events_nil.
  - destruct (call_spec x st) as (p & Hcall & Hp).
    destruct (IH (add_events (before x) st)) as (ps & Hrest & Hps).
    exists (p :: ps). split; [|by constructor].
    rewrite fmap_cons. cbn [issue_all].
    rewrite (bind_fulfilled _ _ _ _ _ Hcall), (bind_fulfilled _ _ _ _ _ Hrest).
    unfold ret. by rewrite add_events_app.
Qed.

Lemma settle_all_spec acct n : ∀ pending todo values st,
  length pending = n →
  Forall2 (λ (ip : nat * Promise A) (ix : nat * X),
             ip.1 = ix.1 ∧ yields ip.2 (value acct ix.2) (after acct ix.2))
    pending todo →
  ∃ done, done ≡ₚ todo
    ∧ settle_all w n pending values st
      = (Fulfilled (store (value acct) values done),
         add_events (flat_map (λ ix, after acct ix.2) done) st).
Proof.
  induction n as [|n IH]; intros pending todo values st Hlen Hall.
  - destruct pending; [|done]. apply Forall2_nil_inv_l in Hall as ->.
    exists []. split; [done |]. simpl. unfold ret. by rewrite add_events_nil.
  - destruct (pick_Some (completion w (history st)) pending)
      as (i & [index p] & Hi & Hpick).
    { by destruct pending. }
    destruct (Forall2_lookup_l _ _ _ _ _ Hall Hi) as ([index' x] & Hx & Hindex & Hp).
    simpl in Hindex, Hp. subst index'.
    destruct (IH (delete i pending) (delete i todo)
                (<[index := Some (value acct x)]> values)
                (add_events (after acct x) st)) as (done & Hperm & Hrun).
    { rewrite length_delete by eauto. lia. }
    { by apply Forall2_delete. }
    exists ((index, x) :: done). split.
    + rewrite Hperm. symmetry. by apply delete_Permutation.
    + simpl. rewrite Hpick, Hp, Hrun. by rewrite add_events_app.
Qed.

Lemma Promise_all_spec acct xs ps st :
  Forall2 (λ p x, yields p (value acct x) (after acct x)) ps xs →
  ∃ settling, settling ≡ₚ xs
    ∧ Promise_all w ps st
      = (Fulfilled (value acct <$> xs),
         add_events (flat_map (after acct) settling) st).
Proof.
  intros Hall. pose proof (Forall2_length _ _ _ Hall) as Hlen.
  destruct (settle_all_spec acct (length ps)
              (zip (seq 0 (length ps)) ps) (zip (seq 0 (length ps)) xs)
              (replicate (length ps) None) st) as (done & Hperm & Hrun).
  { rewrite length_zip, length_seq. apply Nat.min_id. }
  { clear Hlen. generalize 0 as start.
    induction Hall as [|p x ps xs Hp Hall IH]; intros start; simpl; [constructor |].
    constructor; [done | apply IH]. }
  exists (done.*2). split.
  - rewrite Hperm. rewrite snd_zip; [done |]. rewrite length_seq. lia.
  - unfold Promise_all. rewrite (bind_fulfilled _ _ _ _ _ Hrun).
    unfold ret. rewrite Hlen in Hperm |- *.
    rewrite (store_all (value acct) xs done Hperm).
    f_equal.
    + f_equal. clear. induction xs as [|x xs IH]; csimpl; [done | by rewrite IH].
    + f_equal. clear. induction done as [|[i x] done IH]; csimpl; [done | by rewrite IH].
Qed.

(** One batch: all calls are issued, then all promises settle, in some
    order, and the values come back in the order of the calls. *)
Lemma batch_spec xs st :
  ∃ settling, settling ≡ₚ xs
    ∧ (let* promises := issue_all (call <$> xs) in Promise_all w promises) st
      = (Fulfilled (value (this st) <$> xs),
         add_events
           (flat_map before xs ++ flat_map (after (this st)) settling) st).
Proof.
  destruct (issue_all_spec xs st) as (ps & Hissue & Hps).
  destruct (Promise_all_spec (this st) xs ps
              (add_events (flat_map before xs) st) Hps)
    as (settling & Hperm & Hall).
  exists settling. split; [done |].
  by rewrite (bind_fulfilled _ _ _ _ _ Hissue), Hall, add_events_app.
Qed.

Lemma one_by_one_spec xs st :
  one_by_one (call <$> xs) st
  = (Fulfilled (value (this st) <$> xs),
     add_events (flat_map (λ x, before x ++ after (this st) x) xs) st).
Proof.
  revert st. induction xs as [|x xs IH]; intros st.
  - simpl. unfold ret. by rewrite add_events_nil.
  - destruct (call_spec x st) as (p & Hcall & Hp).
    rewrite fmap_cons. cbn [one_by_one].
    assert (Hawait : await (call x) st
      = (Fulfilled (value (this st) x),
         add_events (before x ++ after (this st) x) st)).
    { unfold await. rewrite (bind_fulfilled _ _ _ _ _ Hcall), Hp.
      by rewrite add_events_app. }
    rewrite (bind_fulfilled _ _ _ _ _ Hawait).
    rewrite (bind_fulfilled _ _ _ _ _ (IH _)).
    unfold ret. simpl. by rewrite add_events_app.
Qed.

(** Batch after batch: the next batch is issued when the one before it has
    settled entirely. *)
Lemma chunk_by_chunk_spec (chunks : list (list X)) st :
  ∃ settlings, Forall2 (≡ₚ) settlings chunks
    ∧ chunk_by_chunk w (fmap (M := list) call <$> chunks) st
      = (Fulfilled (fmap (M := list) (value (this st)) <$> chunks),
         add_events
           (concat (zip_with
              (λ chunk settling,
                 flat_map before chunk ++ flat_map (after (this st)) settling)
              chunks settlings)) st).
Proof.
  revert st. induction chunks as [|chunk chunks IH]; intros st.
  - exists []. split; [constructor |]. simpl. unfold ret.
    by rewrite add_events_nil.
  - destruct (issue_all_spec chunk st) as (ps & Hissue & Hps).
    destruct (Promise_all_spec (this st) chunk ps
                (add_events (flat_map before chunk) st) Hps)
      as (settling & Hperm & Hall).
    destruct (IH (add_events (flat_map (after (this st)) settling)
                    (add_events (flat_map before chunk) st)))
      as (settlings & Hperms & Hrest).
    exists (settling :: settlings). split; [by constructor |].
    rewrite fmap_cons. cbn [chunk_by_chunk].
    rewrite (bind_fulfilled _ _ _ _ _ Hissue), (bind_fulfilled _ _ _ _ _ Hall).
    rewrite (bind_fulfilled _ _ _ _ _ Hrest).
    unfold ret. simpl. by rewrite !add_events_app, app_assoc.
Qed.

End Batch.

(** ** The per-subscription tasks *)

Lemma subscriptionRequest_spec w startDate endDate grouping s st : ∃ p,
  subscriptionRequest w startDate endDate grouping s st
    = (Fulfilled p, add_events (estimates_issued s) st)
  ∧ yields p (estimates_of w (this st) startDate endDate grouping s)
      (estimates_settled w (this st) startDate endDate grouping s).
Proof.
  eexists. split.
  - unfold subscriptionRequest, try_async, getDataForSubscription, bind,
      read_this, emit, ret. simpl. rewrite add_events_app. reflexivity.
  - intros st'. unfold estimates_of, estimates_settled, estimates_query.
    unfold try_catch, await, getDataForSubscription, bind, read_this, emit,
      ret, settle. simpl.
    match goal with
    | |- context [service_getEstimates w ?service _ _ _] =>
        destruct (service_getEstimates w service startDate endDate grouping)
          as [results|e]
    end; simpl; [done |].
    by rewrite add_events_app.
Qed.

Lemma recommendationsRequest_spec w s st : ∃ p,
  recommendationsRequest w s st
    = (Fulfilled p, add_events (recommendations_issued s) st)
  ∧ yields p (recommendations_of w (this st) s)
      (recommendations_settled w (this st) s).
Proof.
  eexists. split.
  - unfold recommendationsRequest, try_async,
      getRecommendationsForSubscription, bind, read_this, emit, ret.
    simpl. reflexivity.
  - intros st'. unfold recommendations_of, recommendations_settled,
      recommendations_query.
    unfold try_catch, await, getRecommendationsForSubscription, bind,
      read_this, emit, ret, settle. simpl.
    match goal with
    | |- context [advisor_getRecommendations w ?advisor] =>
        destruct (advisor_getRecommendations w advisor) as [results|e]
    end; simpl; [done |].
    by rewrite add_events_app.
Qed.

(** ** Listing the subscriptions *)

Lemma for_await_state pages : ∀ acc st o st',
  for_await (Credential := Credential) (SubscriptionClient := SubscriptionClient)
    pages acc st = (o, st') → st' = st.
Proof.
  induction pages as [|s pages IH|e]; intros acc st o st' H; simpl in H.
  - by injection H.
  - by eapply IH.
  - by injection H.
Qed.

(** A listing that succeeds adds at most the warning to the history. *)
Lemma getSubscriptions_fulfilled w st subscriptions st1 :
  getSubscriptions w st = (Fulfilled subscriptions, st1) →
  st1 = add_events
          (if length subscriptions =? 0
           then [Log Warn no_subscription_warning] else []) st.
Proof.
  unfold getSubscriptions, bind, read_this. simpl.
  destruct (subscriptionClient (this st)) as [client|]; [|done].
  destruct (for_await (subscriptions_list w client) [] st) as [[subs|e] st0] eqn:Hlist;
    [|done].
  apply for_await_state in Hlist as ->.
  destruct (length subs =? 0) eqn:Hlen; unfold emit, ret; simpl;
    intros H; injection H as <- <-; rewrite Hlen; [done |].
  by rewrite add_events_nil.
Qed.

Lemma getSubscriptions_this w st o st1 :
  getSubscriptions w st = (o, st1) → this st1 = this st.
Proof.
  destruct o as [subscriptions|e].
  - intros H. by rewrite (getSubscriptions_fulfilled _ _ _ _ H).
  - unfold getSubscriptions, bind, read_this. simpl.
    destruct (subscriptionClient (this st)) as [client|];
      [|by intros H; injection H as <- <-].
    destruct (for_await (subscriptions_list w client) [] st) as [[subs|e'] st0] eqn:Hlist.
    + destruct (length subs =? 0); unfold emit, ret; simpl; done.
    + apply for_await_state in Hlist as ->. by intros H; injection H as <- <-.
Qed.

(** ** The three ways of running the requests *)

Lemma advisor_spec w st subscriptions st1 :
  getSubscriptions w st = (Fulfilled subscriptions, st1) →
  ∃ settling, settling ≡ₚ subscriptions
    ∧ getDataFromAdvisorManagement w st
      = (Fulfilled (concat (recommendations_of w (this st) <$> subscriptions)),
         add_events
           (flat_map recommendations_issued subscriptions
            ++ flat_map (recommendations_settled w (this st)) settling) st1).
Proof.
  intros Hlist. pose proof (getSubscriptions_this _ _ _ _ Hlist) as Hthis.
  destruct (batch_spec w (recommendationsRequest w) recommendations_issued
              (recommendations_of w) (recommendations_settled w)
              (recommendationsRequest_spec w) subscriptions st1)
    as (settling & Hperm & Hbatch).
  exists settling. split; [done |].
  unfold getDataFromAdvisorManagement.
  rewrite (bind_fulfilled _ _ _ _ _ Hlist).
  unfold bind at 1 in Hbatch. unfold bind at 1.
  destruct (issue_all (recommendationsRequest w <$> subscriptions) st1)
    as [[promises|e] st2]; [|done].
  rewrite (bind_fulfilled _ _ _ _ _ Hbatch). unfold ret, flat.
  by rewrite Hthis.
Qed.

Lemma consumption_one_by_one w startDate endDate grouping st subscriptions st1 :
  getSubscriptions w st = (Fulfilled subscriptions, st1) →
  CONSUMPTION_CHUNKS_DAYS (configLoader_AZURE w) = true →
  getDataFromConsumptionManagement w startDate endDate grouping st
  = (Fulfilled
       (concat (estimates_of w (this st) startDate endDate grouping
                <$> subscriptions)),
     add_events
       (flat_map (λ s, estimates_issued s
                       ++ estimates_settled w (this st) startDate endDate grouping s)
          subscriptions) st1).
Proof.
  intros Hlist Hdays. pose proof (getSubscriptions_this _ _ _ _ Hlist) as Hthis.
  unfold getDataFromConsumptionManagement.
  rewrite (bind_fulfilled _ _ _ _ _ Hlist), Hdays.
  unfold createSubscriptionRequests.
  rewrite (bind_fulfilled _ _ _ _ _
             (one_by_one_spec (subscriptionRequest w startDate endDate grouping)
                estimates_issued
                (λ acct, estimates_of w acct startDate endDate grouping)
                (λ acct, estimates_settled w acct startDate endDate grouping)
                (subscriptionRequest_spec w startDate endDate grouping)
                subscriptions st1)).
  unfold ret, flat. by rewrite Hthis.
Qed.

Lemma batches_of_concat {X} AZURE (xs : list X) : concat (batches_of AZURE xs) = xs.
Proof.
  unfold batches_of. destruct (SUBSCRIPTION_CHUNKS AZURE) as [chunks|].
  - rewrite splitEvery_while_concat by lia. done.
  - simpl. by rewrite app_nil_r.
Qed.

Lemma consumption_batched w startDate endDate grouping st subscriptions st1 :
  getSubscriptions w st = (Fulfilled subscriptions, st1) →
  CONSUMPTION_CHUNKS_DAYS (configLoader_AZURE w) = false →
  ∃ settlings,
    Forall2 (≡ₚ) settlings (batches_of (configLoader_AZURE w) subscriptions)
    ∧ getDataFromConsumptionManagement w startDate endDate grouping st
      = (Fulfilled
           (concat (estimates_of w (this st) startDate endDate grouping
                    <$> subscriptions)),
         add_events
           ([debug_line (configLoader_AZURE w); timer_start (configLoader_AZURE w)]
            ++ concat (zip_with
                 (λ chunk settling,
                    flat_map estimates_issued chunk
                    ++ flat_map
                         (estimates_settled w (this st) startDate endDate grouping)
                         settling)
                 (batches_of (configLoader_AZURE w) subscriptions) settlings)
            ++ [timer_end (configLoader_AZURE w)]) st1).
Proof.
  intros Hlist Hdays. pose proof (getSubscriptions_this _ _ _ _ Hlist) as Hthis.
  set (AZURE := configLoader_AZURE w) in *.
  destruct (chunk_by_chunk_spec w (subscriptionRequest w startDate endDate grouping)
              estimates_issued
              (λ acct, estimates_of w acct startDate endDate grouping)
              (λ acct, estimates_settled w acct startDate endDate grouping)
              (subscriptionRequest_spec w startDate endDate grouping)
              (batches_of AZURE subscriptions)
              (add_events [debug_line AZURE; timer_start AZURE] st1))
    as (settlings & Hperms & Hrun).
  exists settlings. split; [done |].
  unfold getDataFromConsumptionManagement.
  rewrite (bind_fulfilled _ _ _ _ _ Hlist). fold AZURE. rewrite Hdays.
  unfold createSubscriptionRequests.
  assert (Hchunks :
    match SUBSCRIPTION_CHUNKS AZURE with
    | Some chunks =>
        settle (R_splitEvery (Z.pos chunks)
                  (subscriptionRequest w startDate endDate grouping <$> subscriptions))
    | None => ret [subscriptionRequest w startDate endDate grouping <$> subscriptions]
    end st1
    = (Fulfilled (fmap (M := list) (subscriptionRequest w startDate endDate grouping)
                  <$> batches_of AZURE subscriptions), st1)).
  { unfold batches_of. destruct (SUBSCRIPTION_CHUNKS AZURE) as [chunks|]; [|done].
    unfold settle, R_splitEvery. simpl.
    by rewrite length_fmap, splitEvery_while_map. }
  rewrite (bind_fulfilled _ _ _ _ _ Hchunks).
  unfold bind at 1. unfold emit at 1. unfold bind at 1. unfold emit at 1.
  rewrite add_events_app. simpl app.
  change (add_events _ st1)
    with (add_events [debug_line AZURE; timer_start AZURE] st1) at 1.
  rewrite (bind_fulfilled _ _ _ _ _ Hrun).
  unfold bind, emit, ret. rewrite !add_events_app.
  rewrite flatten_results. simpl this. rewrite Hthis.
  do 2 f_equal. rewrite <- (batches_of_concat AZURE subscriptions) at 2.
  generalize (batches_of AZURE subscriptions). intros chunks.
  induction chunks as [|chunk chunks IH]; csimpl; [done |].
  by rewrite fmap_app, !concat_app, IH.
Qed.

(** ** The upstream trace *)

Lemma api_trace_app evs1 evs2 :
  api_trace (evs1 ++ evs2) = api_trace evs1 ++ api_trace evs2.
Proof. apply List.filter_app. Qed.

Lemma api_trace_warning {A} prefix s (o : settled A) :
  api_trace (warning_of prefix s o) = [].
Proof. by destruct o. Qed.

Lemma api_trace_estimates_issued chunk :
  api_trace (flat_map estimates_issued chunk) = Issued ∘ subscriptionId <$> chunk.
Proof. induction chunk as [|s chunk IH]; csimpl; [done | by rewrite IH]. Qed.

Lemma api_trace_estimates_settled w acct startDate endDate grouping settling :
  api_trace (flat_map (estimates_settled w acct startDate endDate grouping) settling)
  = Resolved ∘ subscriptionId <$> settling.
Proof.
  induction settling as [|s settling IH]; [done |].
  cbn [flat_map]. unfold estimates_settled at 1.
  rewrite api_trace_app, IH. cbn. by rewrite api_trace_warning.
Qed.

Lemma api_trace_batches w acct startDate endDate grouping chunks : ∀ settlings,
  api_trace
    (concat (zip_with
       (λ chunk settling,
          flat_map estimates_issued chunk
          ++ flat_map (estimates_settled w acct startDate endDate grouping) settling)
       chunks settlings))
  = concat (zip_with batch_trace chunks settlings).
Proof.
  induction chunks as [|chunk chunks IH]; intros [|settling settlings]; try done.
  cbn [zip_with concat]. rewrite !api_trace_app, IH.
  by rewrite api_trace_estimates_issued, api_trace_estimates_settled.
Qed.

Lemma high_water_api_trace evs : ∀ current,
  high_water current evs = high_water current (api_trace evs).
Proof.
  induction evs as [|e evs IH]; intros current; [done |].
  destruct e; cbn; by rewrite IH.
Qed.

Lemma high_water_ge evs : ∀ current, current ≤ high_water current evs.
Proof.
  induction evs as [|e evs IH]; intros current; [done |].
  destruct e; cbn; try apply IH; lia.
Qed.

Lemma high_water_issued (ids : list string) evs : ∀ current,
  high_water current ((Issued <$> ids) ++ evs)
  = high_water (current + length ids) evs.
Proof.
  induction ids as [|id ids IH]; intros current; csimpl.
  - by rewrite Nat.add_0_r.
  - rewrite IH. replace (current + S (length ids)) with (S current + length ids) by lia.
    pose proof (high_water_ge evs (S current + length ids)). lia.
Qed.

Lemma high_water_resolved (ids : list string) : ∀ current,
  high_water current (Resolved <$> ids) = current.
Proof.
  induction ids as [|id ids IH]; intros current; csimpl; [done |].
  rewrite IH. lia.
Qed.

Lemma high_water_resolved_app (ids : list string) evs : ∀ current,
  length ids ≤ current →
  high_water current ((Resolved <$> ids) ++ evs)
  = Nat.max current (high_water (current - length ids) evs).
Proof.
  induction ids as [|id ids IH]; intros current Hle; csimpl.
  - rewrite Nat.sub_0_r. pose proof (high_water_ge evs current). lia.
  - csimpl in Hle. rewrite IH by lia.
    replace (Nat.pred current - length ids) with (current - S (length ids)) by lia.
    lia.
Qed.

Lemma high_water_batch chunk settling :
  high_water 0 (batch_trace chunk settling) = length chunk.
Proof.
  unfold batch_trace. rewrite !list_fmap_compose.
  by rewrite high_water_issued, high_water_resolved, length_fmap.
Qed.

(** Batches behind barriers: as many queries in flight as the largest batch
    holds. *)
Lemma high_water_batches n chunks : ∀ settlings,
  Forall2 (≡ₚ) settlings chunks →
  Forall (λ chunk : list Subscription, length chunk ≤ n) chunks →
  high_water 0 (concat (zip_with batch_trace chunks settlings)) ≤ n.
Proof.
  induction chunks as [|chunk chunks IH]; intros settlings Hperms Hsizes.
  - cbn. lia.
  - apply Forall2_cons_inv_r in Hperms as (settling & rest & Hperm & Hperms & ->).
    apply Forall_cons in Hsizes as [Hsize Hsizes].
    cbn [zip_with concat]. unfold batch_trace at 1.
    rewrite !list_fmap_compose, <- app_assoc, high_water_issued.
    rewrite high_water_resolved_app
      by (rewrite !length_fmap; by rewrite Hperm).
    rewrite !length_fmap, Hperm, Nat.sub_diag.
    pose proof (IH rest Hperms Hsizes). cbn [Nat.add]. lia.
Qed.

Lemma high_water_one_by_one (ids : list string) :
  high_water 0 (flat_map (λ id, [Issued id; Resolved id]) ids)
  = Nat.min 1 (length ids).
Proof.
  induction ids as [|id ids IH]; [done |].
  cbn [flat_map app high_water Nat.pred]. rewrite IH.
  cbn [length]. lia.
Qed.

Lemma one_by_one_trace w acct startDate endDate grouping subscriptions :
  api_trace
    (flat_map (λ s, estimates_issued s
                    ++ estimates_settled w acct startDate endDate grouping s)
       subscriptions)
  = flat_map (λ id, [Issued id; Resolved id]) (subscriptionId <$> subscriptions).
Proof.
  induction subscriptions as [|s subscriptions IH]; [done |].
  rewrite fmap_cons. cbn [flat_map]. rewrite !api_trace_app, IH.
  unfold estimates_settled. cbn. by rewrite api_trace_warning.
Qed.

Lemma listing_warning_trace (subscriptions : list Subscription) :
  api_trace (if length subscriptions =? 0
             then [Log Warn no_subscription_warning] else []) = [].
Proof. by destruct (length subscriptions =? 0). Qed.

(** ** Warnings *)

Lemma elem_of_flat_map {X} (f : X → list event) x e xs :
  x ∈ xs → e ∈ f x → e ∈ flat_map f xs.
Proof.
  intros Hx He. induction xs as [|y xs IH]; [by apply elem_of_nil in Hx |].
  cbn [flat_map]. apply elem_of_app.
  apply elem_of_cons in Hx as [<- | Hx]; [by left | right; by apply IH].
Qed.

Lemma elem_of_batches {X} (before after : X → list event) x e chunks settlings :
  Forall2 (≡ₚ) settlings chunks → x ∈ concat chunks → e ∈ after x →
  e ∈ concat (zip_with
                (λ chunk settling, flat_map before chunk ++ flat_map after settling)
                chunks settlings).
Proof.
  intros Hperms. revert x e.
  induction Hperms as [|settling chunk settlings chunks Hperm Hperms IH];
    intros x e Hx He; cbn [concat zip_with] in *.
  - by apply elem_of_nil in Hx.
  - apply elem_of_app in Hx as [Hx | Hx]; apply elem_of_app.
    + left. apply elem_of_app. right.
      apply (elem_of_flat_map after x); [by rewrite Hperm | done].
    + right. by apply (IH x).
Qed.

(** * Properties of the specification *)

(** C3. When [AZURE.CONSUMPTION_CHUNKS_DAYS] is set, the per-subscription
    fetches of [getDataFromConsumptionManagement] run strictly one at a time:
    the upstream client sees every query issued and settled before the next
    one is issued, so never more than one query is in flight (the high-water
    mark of concurrent queries is 1 as soon as there is a subscription). *)
Theorem chunk_by_day_runs_one_at_a_time
    w startDate endDate grouping st subscriptions st1 :
  getSubscriptions w st = (Fulfilled subscriptions, st1) →
  CONSUMPTION_CHUNKS_DAYS (configLoader_AZURE w) = true →
  ∃ results evs,
    getDataFromConsumptionManagement w startDate endDate grouping st
      = (Fulfilled results, add_events evs st)
    ∧ api_trace evs
      = flat_map (λ id, [Issued id; Resolved id]) (subscriptionId <$> subscriptions)
    ∧ high_water 0 evs = Nat.min 1 (length subscriptions).
Proof.
  intros Hlist Hdays.
  rewrite (consumption_one_by_one _ _ _ _ _ _ _ Hlist Hdays).
  rewrite (getSubscriptions_fulfilled _ _ _ _ Hlist), add_events_app.
  eexists _, _. split; [reflexivity |].
  assert (Htrace : ∀ evs,
    api_trace evs
      = flat_map (λ id, [Issued id; Resolved id]) (subscriptionId <$> subscriptions) →
    high_water 0 evs = Nat.min 1 (length subscriptions)).
  { intros evs Hevs.
    by rewrite high_water_api_trace, Hevs, high_water_one_by_one, length_fmap. }
  assert (api_trace
            ((if length subscriptions =? 0
              then [Log Warn no_subscription_warning] else [])
             ++ flat_map
                  (λ s, estimates_issued s
                        ++ estimates_settled w (this st) startDate endDate grouping s)
                  subscriptions)
          = flat_map (λ id, [Issued id; Resolved id])
              (subscriptionId <$> subscriptions)) as Hevs.
  { by rewrite api_trace_app, listing_warning_trace, one_by_one_trace. }
  split; [done | by apply Htrace].
Qed.

(** C4. When [AZURE.CONSUMPTION_CHUNKS_DAYS] is off and
    [AZURE.SUBSCRIPTION_CHUNKS] is a positive integer [k], the tasks are cut
    into consecutive batches of [k], the last one holding what is left (two,
    two and one for [k = 2] and five subscriptions); the upstream client sees,
    batch after batch, all queries of the batch issued and then all of them
    settled, so no query of a batch is issued before the batch before it has
    settled entirely. *)
Theorem batches_run_behind_a_barrier
    w startDate endDate grouping st subscriptions st1 k :
  getSubscriptions w st = (Fulfilled subscriptions, st1) →
  CONSUMPTION_CHUNKS_DAYS (configLoader_AZURE w) = false →
  SUBSCRIPTION_CHUNKS (configLoader_AZURE w) = Some k →
  ∃ chunks,
    R_splitEvery (Z.pos k) subscriptions = Fulfilled chunks
    ∧ concat chunks = subscriptions
    ∧ length <$> chunks
      = replicate (length subscriptions `div` Pos.to_nat k) (Pos.to_nat k)
        ++ (if length subscriptions `mod` Pos.to_nat k =? 0 then []
            else [length subscriptions `mod` Pos.to_nat k])
    ∧ ∃ results evs settlings,
        getDataFromConsumptionManagement w startDate endDate grouping st
          = (Fulfilled results, add_events evs st)
        ∧ Forall2 (≡ₚ) settlings chunks
        ∧ api_trace evs = concat (zip_with batch_trace chunks settlings)
        ∧ high_water 0 evs ≤ Pos.to_nat k.
Proof.
  intros Hlist Hdays Hk.
  destruct (consumption_batched _ startDate endDate grouping _ _ _ Hlist Hdays)
    as (settlings & Hperms & Hrun).
  unfold batches_of in Hperms, Hrun. rewrite Hk in Hperms, Hrun.
  exists (splitEvery_while (length subscriptions) (Pos.to_nat k) 0 subscriptions).
  split; [done |]. split.
  { rewrite splitEvery_while_concat by lia. done. }
  split.
  { rewrite splitEvery_while_sizes by lia. by rewrite Nat.sub_0_r. }
  rewrite (getSubscriptions_fulfilled _ _ _ _ Hlist), add_events_app in Hrun.
  eexists _, _, settlings. split; [exact Hrun |]. split; [done |].
  match goal with |- api_trace ?evs = ?trace ∧ _ =>
    assert (Htrace : api_trace evs = trace)
  end.
  { rewrite !api_trace_app, listing_warning_trace, api_trace_batches.
    cbn. by rewrite app_nil_r. }
  split; [done |].
  rewrite high_water_api_trace, Htrace.
  apply high_water_batches; [done |].
  apply Forall_forall. intros chunk Hchunk.
  assert (Hsizes : length chunk
    ∈ length <$> splitEvery_while (length subscriptions) (Pos.to_nat k) 0
                   subscriptions)
    by (by apply list_elem_of_fmap_2).
  rewrite splitEvery_while_sizes, Nat.sub_0_r in Hsizes by lia.
  apply elem_of_app in Hsizes as [Hfull | Hlast].
  - apply elem_of_replicate in Hfull as [-> _]. done.
  - destruct (length subscriptions `mod` Pos.to_nat k =? 0);
      [by apply elem_of_nil in Hlast |].
    apply list_elem_of_singleton in Hlast as ->.
    apply Nat.lt_le_incl, Nat.mod_upper_bound. lia.
Qed.

(** C7. When [AZURE.SUBSCRIPTION_CHUNKS] is unset and
    [AZURE.CONSUMPTION_CHUNKS_DAYS] is off, all tasks form one batch: the
    upstream client sees every query issued before any of them settles, so
    all of them are in flight together. *)
Theorem unset_chunks_run_one_batch
    w startDate endDate grouping st subscriptions st1 :
  getSubscriptions w st = (Fulfilled subscriptions, st1) →
  CONSUMPTION_CHUNKS_DAYS (configLoader_AZURE w) = false →
  SUBSCRIPTION_CHUNKS (configLoader_AZURE w) = None →
  ∃ results evs settling,
    getDataFromConsumptionManagement w startDate endDate grouping st
      = (Fulfilled results, add_events evs st)
    ∧ settling ≡ₚ subscriptions
    ∧ api_trace evs = batch_trace subscriptions settling
    ∧ high_water 0 evs = length subscriptions.
Proof.
  intros Hlist Hdays Hk.
  destruct (consumption_batched _ startDate endDate grouping _ _ _ Hlist Hdays)
    as (settlings & Hperms & Hrun).
  unfold batches_of in Hperms, Hrun. rewrite Hk in Hperms, Hrun.
  apply Forall2_cons_inv_r in Hperms as (settling & rest & Hperm & Hrest & ->).
  apply Forall2_nil_inv_r in Hrest as ->.
  rewrite (getSubscriptions_fulfilled _ _ _ _ Hlist), add_events_app in Hrun.
  eexists _, _, settling. split; [exact Hrun |]. split; [done |].
  match goal with |- api_trace ?evs = _ ∧ _ =>
    assert (Htrace : api_trace evs = batch_trace subscriptions settling)
  end.
  { cbn [zip_with concat]. rewrite !api_trace_app, listing_warning_trace.
    rewrite api_trace_estimates_issued, api_trace_estimates_settled.
    cbn. by rewrite !app_nil_r. }
  split; [done |].
  by rewrite high_water_api_trace, Htrace, high_water_batch.
Qed.

Lemma consumption_result w startDate endDate grouping st subscriptions st1 :
  getSubscriptions w st = (Fulfilled subscriptions, st1) →
  ∃ st2,
    getDataFromConsumptionManagement w startDate endDate grouping st
    = (Fulfilled
         (concat (estimates_of w (this st) startDate endDate grouping
                  <$> subscriptions)), st2).
Proof.
  intros Hlist.
  destruct (CONSUMPTION_CHUNKS_DAYS (configLoader_AZURE w)) eqn:Hdays.
  - rewrite (consumption_one_by_one _ _ _ _ _ _ _ Hlist Hdays). by eexists.
  - destruct (consumption_batched _ startDate endDate grouping _ _ _ Hlist Hdays)
      as (settlings & Hperms & Hrun).
    rewrite Hrun. by eexists.
Qed.

(** C1. Whatever the subscriptions listed, and whichever of their queries
    fail, [getDataFromConsumptionManagement] and [getDataFromAdvisorManagement]
    succeed: the result is the flattening, in list order, of what each
    subscription contributes, a failed one contributing the empty sequence
    (for [A; B; C] with [B] failing: the results of [A], nothing, the results
    of [C]), and for every failed subscription the log holds a warning with
    its id and the reason. *)
Theorem failed_subscriptions_contribute_nothing
    w startDate endDate grouping st subscriptions st1 :
  getSubscriptions w st = (Fulfilled subscriptions, st1) →
  (∃ st2,
     getDataFromConsumptionManagement w startDate endDate grouping st
       = (Fulfilled
            (concat ((λ s, absorbed
                        (estimates_query w (this st) startDate endDate grouping s))
                     <$> subscriptions)), st2)
     ∧ ∀ s e, s ∈ subscriptions →
         estimates_query w (this st) startDate endDate grouping s = Rejected e →
         Log Warn ("Unable to get estimate data for Azure subscription "
                   +:+ subscriptionId s +:+ ": " +:+ message e) ∈ history st2)
  ∧ (∃ st2,
       getDataFromAdvisorManagement w st
         = (Fulfilled
              (concat ((λ s, absorbed (recommendations_query w (this st) s))
                       <$> subscriptions)), st2)
       ∧ ∀ s e, s ∈ subscriptions →
           recommendations_query w (this st) s = Rejected e →
           Log Warn
             ("Unable to get Advisor recommendations data for Azure subscription "
              +:+ subscriptionId s +:+ ": " +:+ message e) ∈ history st2).
Proof.
  intros Hlist. split.
  - assert (Hwarn : ∀ s e,
      estimates_query w (this st) startDate endDate grouping s = Rejected e →
      Log Warn ("Unable to get estimate data for Azure subscription "
                +:+ subscriptionId s +:+ ": " +:+ message e)
      ∈ estimates_settled w (this st) startDate endDate grouping s).
    { intros s e Hs. unfold estimates_settled. rewrite Hs.
      apply elem_of_cons. right. by apply elem_of_cons; left. }
    destruct (CONSUMPTION_CHUNKS_DAYS (configLoader_AZURE w)) eqn:Hdays.
    + rewrite (consumption_one_by_one _ _ _ _ _ _ _ Hlist Hdays).
      eexists. split; [reflexivity |]. intros s e Hs Hfail.
      cbn [history add_events]. apply elem_of_app. right.
      apply (elem_of_flat_map _ s); [done |].
      apply elem_of_app. right. by apply Hwarn.
    + destruct (consumption_batched _ startDate endDate grouping _ _ _ Hlist Hdays)
        as (settlings & Hperms & Hrun).
      rewrite Hrun. eexists. split; [reflexivity |]. intros s e Hs Hfail.
      cbn [history add_events]. apply elem_of_app. right.
      apply elem_of_app. right. apply elem_of_app. left.
      apply (elem_of_batches _ _ s); [done | | by apply Hwarn].
      by rewrite batches_of_concat.
  - destruct (advisor_spec _ _ _ _ Hlist) as (settling & Hperm & Hrun).
    rewrite Hrun. eexists. split; [reflexivity |]. intros s e Hs Hfail.
    cbn [history add_events]. apply elem_of_app. right.
    apply elem_of_app. right.
    apply (elem_of_flat_map _ s); [by rewrite Hperm |].
    unfold recommendations_settled. rewrite Hfail.
    apply elem_of_cons. right. by apply elem_of_cons; left.
Qed.

(** C2. For a non-empty list of subscriptions whose queries all succeed, the
    output of [getDataFromConsumptionManagement] is the concatenation, in
    list order, of the results of each subscription, whatever the order in
    which the queries issued together complete. *)
Theorem estimates_follow_issue_order
    w startDate endDate grouping st subscriptions st1
    (results : Subscription → list EstimationResult) (order : list event → nat) :
  getSubscriptions w st = (Fulfilled subscriptions, st1) →
  subscriptions ≠ [] →
  Forall (λ s, estimates_query w (this st) startDate endDate grouping s
               = Fulfilled (results s)) subscriptions →
  ∃ st2,
    getDataFromConsumptionManagement (with_completion w order)
      startDate endDate grouping st
    = (Fulfilled (concat (results <$> subscriptions)), st2).
Proof.
  intros Hlist _ Hall.
  assert (Hlist' :
    getSubscriptions (with_completion w order) st = (Fulfilled subscriptions, st1))
    by exact Hlist.
  destruct (consumption_result (with_completion w order)
              startDate endDate grouping st subscriptions st1 Hlist')
    as (st2 & Hrun).
  exists st2. rewrite Hrun. do 3 f_equal.
  apply Forall_fmap_ext_1. eapply Forall_impl; [exact Hall |].
  intros s Hs.
  change (absorbed (estimates_query w (this st) startDate endDate grouping s)
          = results s).
  by rewrite Hs.
Qed.

(** C5. If the listing yields no subscription, [getSubscriptions] logs the
    warning about permissions (a warning, nothing is thrown), and
    [getDataFromAdvisorManagement] and [getDataFromConsumptionManagement]
    both fulfil with the empty sequence, without a single upstream query. *)
Theorem no_subscription_gives_empty_results
    w startDate endDate grouping st st1 :
  getSubscriptions w st = (Fulfilled [], st1) →
  st1 = add_events [Log Warn no_subscription_warning] st
  ∧ getDataFromAdvisorManagement w st = (Fulfilled [], st1)
  ∧ getDataFromConsumptionManagement w startDate endDate grouping st
    = (Fulfilled [],
       add_events
         (if CONSUMPTION_CHUNKS_DAYS (configLoader_AZURE w) then []
          else [debug_line (configLoader_AZURE w);
                timer_start (configLoader_AZURE w);
                timer_end (configLoader_AZURE w)]) st1).
Proof.
  intros Hlist. split; [exact (getSubscriptions_fulfilled _ _ _ _ Hlist) |]. split.
  - destruct (advisor_spec _ _ _ _ Hlist) as (settling & Hperm & Hrun).
    apply Permutation_nil_r in Hperm as ->.
    rewrite Hrun. cbn. by rewrite add_events_nil.
  - destruct (CONSUMPTION_CHUNKS_DAYS (configLoader_AZURE w)) eqn:Hdays.
    + by rewrite (consumption_one_by_one _ _ _ _ _ _ _ Hlist Hdays).
    + destruct (consumption_batched _ startDate endDate grouping _ _ _ Hlist Hdays)
        as (settlings & Hperms & Hrun).
      rewrite Hrun. do 2 f_equal. unfold batches_of in *.
      destruct (SUBSCRIPTION_CHUNKS (configLoader_AZURE w)) as [k|]; cbn in *.
      * by apply Forall2_nil_inv_r in Hperms as ->.
      * apply Forall2_cons_inv_r in Hperms as (settling & rest & Hperm & Hrest & ->).
        apply Forall2_nil_inv_r in Hrest as ->.
        by apply Permutation_nil_r in Hperm as ->.
Qed.

Lemma string_app_empty_r (s : string) : s +:+ EmptyString = s.
Proof.
  induction s as [|c s IH]; [done |].
  change (String c (s +:+ EmptyString) = String c s). by rewrite IH.
Qed.

Lemma string_app_inv_head (p s1 s2 : string) : p +:+ s1 = p +:+ s2 → s1 = s2.
Proof.
  apply String.app_inj.
Qed.

(** C6. If acquiring the credential or constructing the subscription client
    fails, [initializeAccount] fails with an error whose message includes the
    message of the underlying failure; if both succeed, it assigns the
    credential and the subscription client. *)
Theorem initializeAccount_wraps_the_reason w st :
  (∀ e,
     AzureCredentialsProvider_create w = Rejected e
     ∨ (∃ credential,
          AzureCredentialsProvider_create w = Fulfilled credential
          ∧ new_SubscriptionClient w (Some credential) = Rejected e) →
     ∃ err st',
       initializeAccount w st = (Rejected err, st')
       ∧ message err = "Azure initializeAccount failed. Reason: " +:+ message e
       ∧ includes (message err) (message e))
  ∧ (∀ credential client,
       AzureCredentialsProvider_create w = Fulfilled credential →
       new_SubscriptionClient w (Some credential) = Fulfilled client →
       initializeAccount w st
       = (Fulfilled tt,
          {| this := {| credentials := Some credential;
                        subscriptionClient := Some client |};
             history := history st |})).
Proof.
  split.
  - intros e He.
    assert (Hincl : includes
      ("Azure initializeAccount failed. Reason: " +:+ message e) (message e)).
    { exists "Azure initializeAccount failed. Reason: ", EmptyString.
      by rewrite string_app_empty_r. }
    destruct He as [Hcreate | (credential & Hcreate & Hclient)].
    + eexists _, _. split.
      { unfold initializeAccount, try_catch, bind, settle, throw.
        by rewrite Hcreate. }
      split; [reflexivity | exact Hincl].
    + eexists _, _. split.
      { unfold initializeAccount, try_catch, bind, settle, read_this,
          write_this, throw.
        rewrite Hcreate. simpl. by rewrite Hclient. }
      split; [reflexivity | exact Hincl].
  - intros credential client Hcreate Hclient.
    unfold initializeAccount, try_catch, bind, settle, read_this, write_this.
    rewrite Hcreate. simpl. by rewrite Hclient.
Qed.

Lemma run_operation_this w op st : this (run_operation w op st) = this st.
Proof.
  destruct op as [| |startDate endDate grouping]; cbn [run_operation];
    destruct (getSubscriptions w st) as [[subscriptions|e] st1] eqn:Hlist;
    pose proof (getSubscriptions_this _ _ _ _ Hlist) as Hthis.
  - done.
  - done.
  - destruct (advisor_spec _ _ _ _ Hlist) as (settling & _ & Hrun).
    by rewrite Hrun.
  - unfold getDataFromAdvisorManagement.
    by rewrite (bind_rejected _ _ _ _ _ Hlist).
  - destruct (CONSUMPTION_CHUNKS_DAYS (configLoader_AZURE w)) eqn:Hdays.
    + by rewrite (consumption_one_by_one _ _ _ _ _ _ _ Hlist Hdays).
    + destruct (consumption_batched _ startDate endDate grouping _ _ _ Hlist Hdays)
        as (settlings & _ & Hrun).
      by rewrite Hrun.
  - unfold getDataFromConsumptionManagement.
    by rewrite (bind_rejected _ _ _ _ _ Hlist).
Qed.

(** C10. [initializeAccount] assigns the credential and the subscription
    client; after it, whatever public operations are run, in whatever number
    and order and whether they succeed or not, the two fields still hold what
    [initializeAccount] assigned: the operations and the tasks they issue
    only read them. *)
Theorem fields_are_assigned_once w st0 st ops :
  initializeAccount w st0 = (Fulfilled tt, st) →
  (∃ credential client,
     this st = {| credentials := Some credential;
                  subscriptionClient := Some client |})
  ∧ this (run_operations w ops st) = this st.
Proof.
  intros Hinit. split.
  - revert Hinit.
    unfold initializeAccount, try_catch, bind, settle, read_this, write_this, throw.
    destruct (AzureCredentialsProvider_create w) as [credential|e]; [|done].
    simpl. destruct (new_SubscriptionClient w (Some credential)) as [client|e];
      [|done].
    intros H. injection H as <-. by eexists _, _.
  - clear Hinit. revert st. induction ops as [|op ops IH]; intros st; [done |].
    cbn [run_operations foldl]. unfold run_operations in IH.
    by rewrite IH, run_operation_this.
Qed.

(** ** The debug line *)

Lemma debug_lines_app evs1 evs2 :
  debug_lines (evs1 ++ evs2) = debug_lines evs1 ++ debug_lines evs2.
Proof. apply List.filter_app. Qed.

Lemma debug_lines_batches w acct startDate endDate grouping chunks : ∀ settlings,
  debug_lines
    (concat (zip_with
       (λ chunk settling,
          flat_map estimates_issued chunk
          ++ flat_map (estimates_settled w acct startDate endDate grouping) settling)
       chunks settlings)) = [].
Proof.
  assert (Hissued : ∀ chunk, debug_lines (flat_map estimates_issued chunk) = []).
  { induction chunk as [|s chunk IH]; [done | exact IH]. }
  assert (Hsettled : ∀ settling,
    debug_lines
      (flat_map (estimates_settled w acct startDate endDate grouping) settling) = []).
  { induction settling as [|s settling IH]; [done |].
    cbn [flat_map]. rewrite debug_lines_app, IH. unfold estimates_settled.
    by destruct (estimates_query w acct startDate endDate grouping s). }
  induction chunks as [|chunk chunks IH]; intros [|settling settlings]; try done.
  cbn [zip_with concat]. by rewrite !debug_lines_app, IH, Hissued, Hsettled.
Qed.

(** Whenever the batches run, the one line written at debug level is the
    malformed one. *)
Lemma debug_line_logged w startDate endDate grouping st subscriptions st1 :
  getSubscriptions w st = (Fulfilled subscriptions, st1) →
  CONSUMPTION_CHUNKS_DAYS (configLoader_AZURE w) = false →
  ∃ results evs,
    getDataFromConsumptionManagement w startDate endDate grouping st
      = (Fulfilled results, add_events evs st)
    ∧ debug_lines evs = [debug_line (configLoader_AZURE w)].
Proof.
  intros Hlist Hdays.
  destruct (consumption_batched _ startDate endDate grouping _ _ _ Hlist Hdays)
    as (settlings & Hperms & Hrun).
  rewrite (getSubscriptions_fulfilled _ _ _ _ Hlist), add_events_app in Hrun.
  eexists _, _. split; [exact Hrun |].
  rewrite !debug_lines_app, debug_lines_batches.
  by destruct (length subscriptions =? 0).
Qed.

(** It is never the line the spec intends. *)
Lemma debug_line_differs AZURE : debug_line AZURE ≠ intended_debug_line AZURE.
Proof.
  unfold debug_line, intended_debug_line. intros H. injection H as H.
  apply string_app_inv_head in H.
  destruct (SUBSCRIPTION_CHUNKS AZURE) as [k|]; cbn [template_number or_one] in H.
  - by apply string_app_inv_head in H.
  - done.
Qed.

(** * Further properties of the facade *)

(** ** The listing, page by page *)

Lemma for_await_outcome pages : ∀ acc st,
  for_await (Credential := Credential) (SubscriptionClient := SubscriptionClient)
    pages acc st
  = (match listing_outcome pages with
     | Fulfilled subscriptions => Fulfilled (acc ++ subscriptions)
     | Rejected e => Rejected e
     end, st).
Proof.
  induction pages as [|s pages IH|e]; intros acc st; cbn [for_await listing_outcome].
  - unfold ret. by rewrite app_nil_r.
  - rewrite IH. destruct (listing_outcome pages); [|done].
    by rewrite <- app_assoc.
  - done.
Qed.

Lemma getSubscriptions_outcome w st client :
  subscriptionClient (this st) = Some client →
  getSubscriptions w st
  = match listing_outcome (subscriptions_list w client) with
    | Fulfilled subscriptions =>
        (Fulfilled subscriptions, add_events (listing_warning subscriptions) st)
    | Rejected e => (Rejected e, st)
    end.
Proof.
  intros Hclient. unfold getSubscriptions, bind, read_this. rewrite Hclient.
  rewrite for_await_outcome.
  destruct (listing_outcome (subscriptions_list w client)) as [subs|e]; [|done].
  cbn [app]. unfold listing_warning.
  destruct (length subs =? 0); unfold emit, ret; [done |].
  by rewrite add_events_nil.
Qed.

Lemma listing_outcome_pages_of subscriptions :
  listing_outcome (pages_of subscriptions) = Fulfilled subscriptions.
Proof.
  induction subscriptions as [|s subscriptions IH]; [done |].
  cbn [pages_of listing_outcome]. by rewrite IH.
Qed.

(** X1. On a facade whose [subscriptionClient] is still undefined, that is
    before [initializeAccount] has succeeded, [getSubscriptions],
    [getDataFromAdvisorManagement] and [getDataFromConsumptionManagement] all
    reject with the same error, and nothing is logged and no query issued. *)
Theorem uninitialized_facade_rejects w startDate endDate grouping st :
  subscriptionClient (this st) = None →
  ∃ e,
    getSubscriptions w st = (Rejected e, st)
    ∧ getDataFromAdvisorManagement w st = (Rejected e, st)
    ∧ getDataFromConsumptionManagement w startDate endDate grouping st
      = (Rejected e, st).
Proof.
  intros Hclient.
  assert (Hlist : getSubscriptions w st
    = (Rejected {| message :=
         "Cannot read properties of undefined (reading 'subscriptions')" |}, st)).
  { unfold getSubscriptions, bind, read_this. by rewrite Hclient. }
  eexists. split; [exact Hlist |]. split.
  - unfold getDataFromAdvisorManagement. by rewrite (bind_rejected _ _ _ _ _ Hlist).
  - unfold getDataFromConsumptionManagement.
    by rewrite (bind_rejected _ _ _ _ _ Hlist).
Qed.

Lemma advisor_fulfils w st subscriptions st1 :
  getSubscriptions w st = (Fulfilled subscriptions, st1) →
  ∃ recommendations st2,
    getDataFromAdvisorManagement w st = (Fulfilled recommendations, st2).
Proof.
  intros Hlist. destruct (advisor_spec _ _ _ _ Hlist) as (settling & _ & Hrun).
  by eexists _, _.
Qed.

(** X2. On an initialized facade the one error a caller can get is the error
    of the listing: if the iterator of subscriptions throws, after any number
    of pages, the three operations reject with that very error, unwrapped,
    having logged nothing and issued no query; and the two data operations
    reject in no other case. *)
Theorem only_the_listing_can_fail w startDate endDate grouping st client e :
  subscriptionClient (this st) = Some client →
  (listing_outcome (subscriptions_list w client) = Rejected e →
     getSubscriptions w st = (Rejected e, st)
     ∧ getDataFromAdvisorManagement w st = (Rejected e, st)
     ∧ getDataFromConsumptionManagement w startDate endDate grouping st
       = (Rejected e, st))
  ∧ ((∃ st', getDataFromAdvisorManagement w st = (Rejected e, st')) →
       listing_outcome (subscriptions_list w client) = Rejected e)
  ∧ ((∃ st', getDataFromConsumptionManagement w startDate endDate grouping st
             = (Rejected e, st')) →
       listing_outcome (subscriptions_list w client) = Rejected e).
Proof.
  intros Hclient. pose proof (getSubscriptions_outcome w st client Hclient) as Hlist.
  split; [|split].
  - intros Hthrow. rewrite Hthrow in Hlist. split; [done |]. split.
    + unfold getDataFromAdvisorManagement.
      by rewrite (bind_rejected _ _ _ _ _ Hlist).
    + unfold getDataFromConsumptionManagement.
      by rewrite (bind_rejected _ _ _ _ _ Hlist).
  - intros [st' Hrun].
    destruct (listing_outcome (subscriptions_list w client)) as [subs|e'].
    + destruct (advisor_fulfils _ _ _ _ Hlist) as (r & st2 & Hok). congruence.
    + unfold getDataFromAdvisorManagement in Hrun.
      rewrite (bind_rejected _ _ _ _ _ Hlist) in Hrun. congruence.
  - intros [st' Hrun].
    destruct (listing_outcome (subscriptions_list w client)) as [subs|e'].
    + destruct (consumption_result _ startDate endDate grouping _ _ _ Hlist)
        as (st2 & Hok). congruence.
    + unfold getDataFromConsumptionManagement in Hrun.
      rewrite (bind_rejected _ _ _ _ _ Hlist) in Hrun. congruence.
Qed.

(** X3. [getSubscriptions] returns the subscriptions in the order in which
    the upstream iterator yields them, all of them and nothing else, and it
    logs the warning about permissions exactly when there is none. *)
Theorem subscriptions_come_in_upstream_order w st client subscriptions :
  subscriptionClient (this st) = Some client →
  subscriptions_list w client = pages_of subscriptions →
  getSubscriptions w st
  = (Fulfilled subscriptions,
     add_events
       (match subscriptions with
        | [] => [Log Warn no_subscription_warning]
        | _ :: _ => []
        end) st).
Proof.
  intros Hclient Hpages.
  rewrite (getSubscriptions_outcome w st client Hclient), Hpages.
  rewrite listing_outcome_pages_of. by destruct subscriptions.
Qed.


(** ** Projections of the history *)

Section Projection.

Context {B : Type}.
Variable proj : list event → list B.
Hypothesis proj_app : ∀ evs1 evs2, proj (evs1 ++ evs2) = proj evs1 ++ proj evs2.

Lemma proj_nil : proj [] = [].
Proof.
  pose proof (proj_app [] []) as H. cbn [app] in H.
  apply (f_equal length) in H. rewrite length_app in H.
  destruct (proj []); [done | simpl in H; lia].
Qed.

Lemma proj_flat_map_nil {X} (f : X → list event) xs :
  (∀ x, proj (f x) = []) → proj (flat_map f xs) = [].
Proof.
  intros Hf. induction xs as [|x xs IH]; cbn [flat_map]; [apply proj_nil |].
  by rewrite proj_app, Hf, IH.
Qed.

Lemma proj_flat_map_perm {X} (f : X → list event) xs ys :
  xs ≡ₚ ys → proj (flat_map f xs) ≡ₚ proj (flat_map f ys).
Proof.
  induction 1 as [|x xs ys _ IH|x y xs|xs ys zs _ IH1 _ IH2]; cbn [flat_map].
  - done.
  - by rewrite !proj_app, IH.
  - rewrite !proj_app, !app_assoc. f_equiv. apply Permutation_app_comm.
  - by rewrite IH1.
Qed.

Lemma proj_one_by_one_issue {X} (before after : X → list event) xs :
  (∀ x, proj (after x) = []) →
  proj (flat_map (λ x, before x ++ after x) xs) = proj (flat_map before xs).
Proof.
  intros Hafter. induction xs as [|x xs IH]; cbn [flat_map]; [done |].
  by rewrite !proj_app, Hafter, IH, app_nil_r.
Qed.

Lemma proj_one_by_one_settle {X} (before after : X → list event) xs :
  (∀ x, proj (before x) = []) →
  proj (flat_map (λ x, before x ++ after x) xs) = proj (flat_map after xs).
Proof.
  intros Hbefore. induction xs as [|x xs IH]; cbn [flat_map]; [done |].
  by rewrite !proj_app, Hbefore, IH.
Qed.

Lemma proj_batches_issue {X} (before after : X → list event) chunks settlings :
  Forall2 (≡ₚ) settlings chunks →
  (∀ x, proj (after x) = []) →
  proj (concat (zip_with
          (λ chunk settling, flat_map before chunk ++ flat_map after settling)
          chunks settlings))
  = proj (flat_map before (concat chunks)).
Proof.
  intros Hperms Hafter.
  induction Hperms as [|settling chunk settlings chunks _ _ IH];
    cbn [zip_with concat]; [done |].
  rewrite flat_map_app, !proj_app, IH.
  by rewrite (proj_flat_map_nil after settling Hafter), app_nil_r.
Qed.

Lemma proj_batches_settle {X} (before after : X → list event) chunks settlings :
  Forall2 (≡ₚ) settlings chunks →
  (∀ x, proj (before x) = []) →
  proj (concat (zip_with
          (λ chunk settling, flat_map before chunk ++ flat_map after settling)
          chunks settlings))
  ≡ₚ proj (flat_map after (concat chunks)).
Proof.
  intros Hperms Hbefore.
  induction Hperms as [|settling chunk settlings chunks Hperm _ IH];
    cbn [zip_with concat]; [done |].
  rewrite flat_map_app, !proj_app, IH.
  rewrite (proj_flat_map_nil before chunk Hbefore). cbn [app].
  f_equiv. by apply proj_flat_map_perm.
Qed.

(** The two sides of what a consumption run adds to the history: what the
    issuing leaves comes in list order, what the settling leaves comes in
    some order. *)
Lemma proj_consumption_issue w acct startDate endDate grouping subscriptions
    settlings :
  Forall2 (≡ₚ) settlings (batches_of (configLoader_AZURE w) subscriptions) →
  (∀ s, proj (estimates_settled w acct startDate endDate grouping s) = []) →
  proj [debug_line (configLoader_AZURE w); timer_start (configLoader_AZURE w)] = [] →
  proj [timer_end (configLoader_AZURE w)] = [] →
  proj (consumption_events w acct startDate endDate grouping subscriptions settlings)
  = proj (flat_map estimates_issued subscriptions).
Proof.
  intros Hperms Hsettled Hopen Hclose. unfold consumption_events.
  destruct (CONSUMPTION_CHUNKS_DAYS (configLoader_AZURE w)).
  - by apply proj_one_by_one_issue.
  - rewrite !proj_app, Hopen, Hclose, app_nil_r. cbn [app].
    rewrite (proj_batches_issue _ _ _ _ Hperms Hsettled).
    by rewrite batches_of_concat.
Qed.

Lemma proj_consumption_settle w acct startDate endDate grouping subscriptions
    settlings :
  Forall2 (≡ₚ) settlings (batches_of (configLoader_AZURE w) subscriptions) →
  (∀ s, proj (estimates_issued s) = []) →
  proj [debug_line (configLoader_AZURE w); timer_start (configLoader_AZURE w)] = [] →
  proj [timer_end (configLoader_AZURE w)] = [] →
  proj (consumption_events w acct startDate endDate grouping subscriptions settlings)
  ≡ₚ proj (flat_map (estimates_settled w acct startDate endDate grouping)
             subscriptions).
Proof.
  intros Hperms Hissued Hopen Hclose. unfold consumption_events.
  destruct (CONSUMPTION_CHUNKS_DAYS (configLoader_AZURE w)).
  - by rewrite proj_one_by_one_settle.
  - rewrite !proj_app, Hopen, Hclose, app_nil_r. cbn [app].
    rewrite (proj_batches_settle _ _ _ _ Hperms Hissued).
    by rewrite batches_of_concat.
Qed.

End Projection.

(** The whole of a consumption run, in either mode. *)
Lemma consumption_run w startDate endDate grouping st subscriptions st1 :
  getSubscriptions w st = (Fulfilled subscriptions, st1) →
  ∃ settlings,
    Forall2 (≡ₚ) settlings (batches_of (configLoader_AZURE w) subscriptions)
    ∧ getDataFromConsumptionManagement w startDate endDate grouping st
      = (Fulfilled
           (concat (estimates_of w (this st) startDate endDate grouping
                    <$> subscriptions)),
         add_events
           (listing_warning subscriptions
            ++ consumption_events w (this st) startDate endDate grouping
                 subscriptions settlings) st).
Proof.
  intros Hlist. unfold consumption_events.
  destruct (CONSUMPTION_CHUNKS_DAYS (configLoader_AZURE w)) eqn:Hdays.
  - exists (batches_of (configLoader_AZURE w) subscriptions).
    split; [apply Forall_Forall2_diag, Forall_forall; by intros |].
    rewrite (consumption_one_by_one _ _ _ _ _ _ _ Hlist Hdays).
    by rewrite (getSubscriptions_fulfilled _ _ _ _ Hlist), add_events_app.
  - destruct (consumption_batched _ startDate endDate grouping _ _ _ Hlist Hdays)
      as (settlings & Hperms & Hrun).
    exists settlings. split; [done |]. rewrite Hrun.
    by rewrite (getSubscriptions_fulfilled _ _ _ _ Hlist), add_events_app.
Qed.

Lemma warn_lines_app evs1 evs2 :
  warn_lines (evs1 ++ evs2) = warn_lines evs1 ++ warn_lines evs2.
Proof. apply List.filter_app. Qed.

Lemma info_lines_app evs1 evs2 :
  info_lines (evs1 ++ evs2) = info_lines evs1 ++ info_lines evs2.
Proof. apply List.filter_app. Qed.

Lemma timers_app evs1 evs2 : timers (evs1 ++ evs2) = timers evs1 ++ timers evs2.
Proof. apply List.filter_app. Qed.

Lemma issued_ids_app evs1 evs2 :
  issued_ids (evs1 ++ evs2) = issued_ids evs1 ++ issued_ids evs2.
Proof. apply omap_app. Qed.

Lemma resolved_ids_app evs1 evs2 :
  resolved_ids (evs1 ++ evs2) = resolved_ids evs1 ++ resolved_ids evs2.
Proof. apply omap_app. Qed.

Lemma warning_of_only_warns {A} prefix s (o : settled A) :
  warn_lines (warning_of prefix s o) = warning_of prefix s o
  ∧ info_lines (warning_of prefix s o) = []
  ∧ timers (warning_of prefix s o) = []
  ∧ issued_ids (warning_of prefix s o) = []
  ∧ resolved_ids (warning_of prefix s o) = [].
Proof. by destruct o. Qed.

Lemma listing_warning_only_warns subscriptions :
  warn_lines (listing_warning subscriptions) = listing_warning subscriptions
  ∧ info_lines (listing_warning subscriptions) = []
  ∧ timers (listing_warning subscriptions) = []
  ∧ issued_ids (listing_warning subscriptions) = []
  ∧ resolved_ids (listing_warning subscriptions) = []
  ∧ api_trace (listing_warning subscriptions) = [].
Proof. unfold listing_warning. by destruct (length subscriptions =? 0). Qed.

Lemma resolved_ids_estimates_settled w acct startDate endDate grouping
    (subscriptions : list Subscription) :
  resolved_ids
    (flat_map (estimates_settled w acct startDate endDate grouping) subscriptions)
  = subscriptionId <$> subscriptions.
Proof.
  induction subscriptions as [|s subscriptions IH]; [done |].
  cbn [flat_map]. rewrite resolved_ids_app, IH, fmap_cons.
  unfold estimates_settled.
  destruct (warning_of_only_warns
              "Unable to get estimate data for Azure subscription " s
              (estimates_query w acct startDate endDate grouping s))
    as (_ & _ & _ & _ & Hr).
  change (resolved_ids (Resolved (subscriptionId s) :: ?ws))
    with (subscriptionId s :: resolved_ids ws).
  by rewrite Hr.
Qed.

(** X5. In every mode, under every configuration and completion order,
    [getDataFromConsumptionManagement] issues the queries in the order of
    the subscription list, one query per listed subscription; the info lines
    "Getting data for ..." come in that order too, and by the time it
    returns every query it issued has settled. *)
Theorem queries_are_issued_in_list_order
    w startDate endDate grouping st subscriptions st1 :
  getSubscriptions w st = (Fulfilled subscriptions, st1) →
  ∃ results evs,
    getDataFromConsumptionManagement w startDate endDate grouping st
      = (Fulfilled results, add_events evs st)
    ∧ issued_ids evs = subscriptionId <$> subscriptions
    ∧ info_lines evs
      = (λ s, Log Info ("Getting data for " +:+ displayName s +:+ "..."))
        <$> subscriptions
    ∧ resolved_ids evs ≡ₚ subscriptionId <$> subscriptions.
Proof.
  intros Hlist.
  destruct (consumption_run _ startDate endDate grouping _ _ _ Hlist)
    as (settlings & Hperms & Hrun).
  eexists _, _. split; [exact Hrun |].
  destruct (listing_warning_only_warns subscriptions)
    as (_ & Hinfo & _ & Hissued & Hresolved & _).
  assert (Hquiet : ∀ s,
    issued_ids (estimates_settled w (this st) startDate endDate grouping s) = []
    ∧ info_lines (estimates_settled w (this st) startDate endDate grouping s) = []).
  { intros s. unfold estimates_settled.
    destruct (warning_of_only_warns
                "Unable to get estimate data for Azure subscription " s
                (estimates_query w (this st) startDate endDate grouping s))
      as (_ & Hi & _ & Hq & _).
    split; [exact Hq | exact Hi]. }
  split; [|split].
  - rewrite issued_ids_app, Hissued. cbn [app].
    rewrite (proj_consumption_issue issued_ids issued_ids_app _ _ _ _ _ _ _ Hperms);
      [| intros s; apply Hquiet | done | done].
    clear. induction subscriptions as [|s subscriptions IH]; [done |].
    cbn [flat_map]. rewrite issued_ids_app, IH. done.
  - rewrite info_lines_app, Hinfo. cbn [app].
    rewrite (proj_consumption_issue info_lines info_lines_app _ _ _ _ _ _ _ Hperms);
      [| intros s; apply Hquiet | done | done].
    clear. induction subscriptions as [|s subscriptions IH]; [done |].
    cbn [flat_map]. rewrite info_lines_app, IH. done.
  - rewrite resolved_ids_app, Hresolved. cbn [app].
    rewrite (proj_consumption_settle resolved_ids resolved_ids_app
               _ _ _ _ _ _ _ Hperms); [| done | done | done].
    by rewrite resolved_ids_estimates_settled.
Qed.

Lemma warn_lines_estimates_settled w acct startDate endDate grouping
    (subscriptions : list Subscription) :
  warn_lines
    (flat_map (estimates_settled w acct startDate endDate grouping) subscriptions)
  = flat_map
      (λ s, warning_of "Unable to get estimate data for Azure subscription " s
              (estimates_query w acct startDate endDate grouping s))
      subscriptions.
Proof.
  induction subscriptions as [|s subscriptions IH]; [done |].
  cbn [flat_map]. rewrite warn_lines_app, IH. unfold estimates_settled.
  destruct (warning_of_only_warns
              "Unable to get estimate data for Azure subscription " s
              (estimates_query w acct startDate endDate grouping s)) as (Hw & _).
  change (warn_lines (Resolved (subscriptionId s) :: ?ws)) with (warn_lines ws).
  by rewrite Hw.
Qed.

Lemma warn_lines_recommendations_settled w acct (subscriptions : list Subscription) :
  warn_lines (flat_map (recommendations_settled w acct) subscriptions)
  = flat_map
      (λ s, warning_of
              "Unable to get Advisor recommendations data for Azure subscription "
              s (recommendations_query w acct s))
      subscriptions.
Proof.
  induction subscriptions as [|s subscriptions IH]; [done |].
  cbn [flat_map]. rewrite warn_lines_app, IH. unfold recommendations_settled.
  destruct (warning_of_only_warns
              "Unable to get Advisor recommendations data for Azure subscription "
              s (recommendations_query w acct s)) as (Hw & _).
  change (warn_lines (Resolved (subscriptionId s) :: ?ws)) with (warn_lines ws).
  by rewrite Hw.
Qed.

(** X6. Both data operations log exactly one warning per subscription whose
    query failed, naming its id and the reason, and none for a subscription
    whose query succeeded; the one other warning they can log is the
    listing's, when there is no subscription.  The warnings come in the order
    in which the queries settle. *)
Theorem one_warning_per_failed_subscription
    w startDate endDate grouping st subscriptions st1 :
  getSubscriptions w st = (Fulfilled subscriptions, st1) →
  (∃ results evs,
     getDataFromConsumptionManagement w startDate endDate grouping st
       = (Fulfilled results, add_events evs st)
     ∧ warn_lines evs
       ≡ₚ listing_warning subscriptions
          ++ flat_map
               (λ s, match estimates_query w (this st) startDate endDate grouping s
                     with
                     | Fulfilled _ => []
                     | Rejected e =>
                         [Log Warn
                            ("Unable to get estimate data for Azure subscription "
                             +:+ subscriptionId s +:+ ": " +:+ message e)]
                     end)
               subscriptions)
  ∧ (∃ recommendations evs,
       getDataFromAdvisorManagement w st
         = (Fulfilled recommendations, add_events evs st)
       ∧ warn_lines evs
         ≡ₚ listing_warning subscriptions
            ++ flat_map
                 (λ s, match recommendations_query w (this st) s with
                       | Fulfilled _ => []
                       | Rejected e =>
                           [Log Warn
                              ("Unable to get Advisor recommendations data for Azure subscription "
                               +:+ subscriptionId s +:+ ": " +:+ message e)]
                       end)
                 subscriptions).
Proof.
  intros Hlist.
  destruct (listing_warning_only_warns subscriptions) as (Hwarn & _).
  split.
  - destruct (consumption_run _ startDate endDate grouping _ _ _ Hlist)
      as (settlings & Hperms & Hrun).
    eexists _, _. split; [exact Hrun |].
    rewrite warn_lines_app, Hwarn. f_equiv.
    rewrite (proj_consumption_settle warn_lines warn_lines_app
               _ _ _ _ _ _ _ Hperms); [| done | done | done].
    by rewrite warn_lines_estimates_settled.
  - destruct (advisor_spec _ _ _ _ Hlist) as (settling & Hperm & Hrun).
    rewrite (getSubscriptions_fulfilled _ _ _ _ Hlist), add_events_app in Hrun.
    eexists _, _. split; [exact Hrun |].
    fold (listing_warning subscriptions).
    rewrite !warn_lines_app, Hwarn. f_equiv.
    rewrite (proj_flat_map_nil warn_lines warn_lines_app
               recommendations_issued subscriptions) by done.
    cbn [app].
    rewrite (proj_flat_map_perm warn_lines warn_lines_app _ _ _ Hperm).
    by rewrite warn_lines_recommendations_settled.
Qed.

(** X7. [getDataFromAdvisorManagement] fans out without bound, whatever the
    configuration of the consumption path is: all queries are issued, in
    list order, before any of them settles, so all of them are in flight
    together. *)
Theorem advisor_fans_out_at_once w st subscriptions st1 :
  getSubscriptions w st = (Fulfilled subscriptions, st1) →
  ∃ recommendations evs settling,
    getDataFromAdvisorManagement w st
      = (Fulfilled recommendations, add_events evs st)
    ∧ settling ≡ₚ subscriptions
    ∧ api_trace evs = batch_trace subscriptions settling
    ∧ high_water 0 evs = length subscriptions.
Proof.
  intros Hlist.
  destruct (advisor_spec _ _ _ _ Hlist) as (settling & Hperm & Hrun).
  rewrite (getSubscriptions_fulfilled _ _ _ _ Hlist), add_events_app in Hrun.
  eexists _, _, settling. split; [exact Hrun |]. split; [done |].
  match goal with |- api_trace ?evs = _ ∧ _ =>
    assert (Htrace : api_trace evs = batch_trace subscriptions settling)
  end.
  { rewrite !api_trace_app, listing_warning_trace. cbn [app].
    unfold batch_trace. f_equal.
    - clear. induction subscriptions as [|s subscriptions IH]; [done |].
      cbn [flat_map]. by rewrite api_trace_app, IH.
    - clear. induction settling as [|s settling IH]; [done |].
      cbn [flat_map]. rewrite api_trace_app, IH. unfold recommendations_settled.
      cbn. by rewrite api_trace_warning. }
  split; [done |].
  by rewrite high_water_api_trace, Htrace, high_water_batch.
Qed.

Lemma run_operation_without_subscription w op st client :
  subscriptionClient (this st) = Some client →
  subscriptions_list w client = Done →
  ∃ evs,
    run_operation w op st = add_events evs st
    ∧ warn_lines evs = [Log Warn no_subscription_warning].
Proof.
  intros Hclient Hnone.
  pose proof (getSubscriptions_outcome w st client Hclient) as Hlist.
  rewrite Hnone in Hlist. cbn [listing_outcome] in Hlist.
  destruct op as [| |startDate endDate grouping]; cbn [run_operation].
  - rewrite Hlist. by eexists.
  - destruct (advisor_spec _ _ _ _ Hlist) as (settling & Hperm & Hrun).
    apply Permutation_nil_r in Hperm as ->.
    rewrite Hrun. cbn [snd flat_map app]. rewrite add_events_app. by eexists.
  - destruct (consumption_run _ startDate endDate grouping _ _ _ Hlist)
      as (settlings & Hperms & Hrun).
    rewrite Hrun. cbn [snd]. eexists. split; [done |].
    rewrite warn_lines_app.
    pose proof (proj_consumption_settle warn_lines warn_lines_app
                  w (this st) startDate endDate grouping [] settlings Hperms)
      as Hquiet.
    specialize (Hquiet ltac:(done) ltac:(done) ltac:(done)).
    apply Permutation_nil_r in Hquiet. by rewrite Hquiet.
Qed.

(** X8. The facade caches no listing: every public operation lists the
    subscriptions afresh.  With no subscription upstream, a session of any
    operations, in any number and order, logs the warning about permissions
    once per operation, and no other warning. *)
Theorem subscriptions_are_listed_by_every_operation w ops st client :
  subscriptionClient (this st) = Some client →
  subscriptions_list w client = Done →
  ∃ evs,
    run_operations w ops st = add_events evs st
    ∧ warn_lines evs = replicate (length ops) (Log Warn no_subscription_warning).
Proof.
  intros Hclient Hnone. revert st Hclient.
  induction ops as [|op ops IH]; intros st Hclient.
  - exists []. by rewrite add_events_nil.
  - destruct (run_operation_without_subscription w op st client Hclient Hnone)
      as (evs & Hop & Hwarn).
    destruct (IH (run_operation w op st)) as (evs' & Hops & Hwarns).
    { by rewrite run_operation_this. }
    exists (evs ++ evs'). split.
    + change (run_operations w (op :: ops) st)
        with (run_operations w ops (run_operation w op st)).
      by rewrite Hops, Hop, add_events_app.
    + by rewrite warn_lines_app, Hwarn, Hwarns.
Qed.

(** X9. [AZURE.CONSUMPTION_CHUNKS_DAYS] takes precedence: when it is set,
    the whole outcome of [getDataFromConsumptionManagement], its value and
    everything it logs and issues, is the same whatever
    [AZURE.SUBSCRIPTION_CHUNKS] holds and whatever order promises would
    complete in. *)
Theorem chunk_by_day_ignores_the_batch_size
    w AZURE order startDate endDate grouping st :
  CONSUMPTION_CHUNKS_DAYS (configLoader_AZURE w) = true →
  CONSUMPTION_CHUNKS_DAYS AZURE = true →
  getDataFromConsumptionManagement (reconfigure w AZURE order)
    startDate endDate grouping st
  = getDataFromConsumptionManagement w startDate endDate grouping st.
Proof.
  intros Hdays Hdays'.
  destruct (getSubscriptions w st) as [[subscriptions|e] st1] eqn:Hlist.
  - assert (Hlist' : getSubscriptions (reconfigure w AZURE order) st
                     = (Fulfilled subscriptions, st1)) by exact Hlist.
    rewrite (consumption_one_by_one _ _ _ _ _ _ _ Hlist Hdays).
    by rewrite (consumption_one_by_one _ _ _ _ _ _ _ Hlist' Hdays').
  - assert (Hlist' : getSubscriptions (reconfigure w AZURE order) st
                     = (Rejected e, st1)) by exact Hlist.
    unfold getDataFromConsumptionManagement.
    by rewrite (bind_rejected _ _ _ _ _ Hlist), (bind_rejected _ _ _ _ _ Hlist').
Qed.

(** X10. The configuration and the completion order decide how the queries
    are scheduled, never what is returned: under any two configurations and
    completion orders, over the same upstream services,
    [getDataFromConsumptionManagement] fulfils with the same estimates, also
    when some queries fail. *)
Theorem configuration_never_changes_the_estimates
    w AZURE order startDate endDate grouping st subscriptions st1 :
  getSubscriptions w st = (Fulfilled subscriptions, st1) →
  ∃ results st2 st2',
    getDataFromConsumptionManagement w startDate endDate grouping st
      = (Fulfilled results, st2)
    ∧ getDataFromConsumptionManagement (reconfigure w AZURE order)
        startDate endDate grouping st
      = (Fulfilled results, st2').
Proof.
  intros Hlist.
  assert (Hlist' : getSubscriptions (reconfigure w AZURE order) st
                   = (Fulfilled subscriptions, st1)) by exact Hlist.
  destruct (consumption_result _ startDate endDate grouping _ _ _ Hlist)
    as (st2 & Hrun).
  destruct (consumption_result _ startDate endDate grouping _ _ _ Hlist')
    as (st2' & Hrun').
  eexists _, st2, st2'. split; [exact Hrun | exact Hrun'].
Qed.

(** X11. When the batches run, [console.time] and [console.timeEnd] are
    each called once, around the batches, and the label ended is the label
    started exactly when [AZURE.SUBSCRIPTION_CHUNKS] is set: with no batch
    size configured the timer started under "undefined chunk(s)" is never
    ended. *)
Theorem timer_labels_match_when_chunks_are_set
    w startDate endDate grouping st subscriptions st1 :
  getSubscriptions w st = (Fulfilled subscriptions, st1) →
  CONSUMPTION_CHUNKS_DAYS (configLoader_AZURE w) = false →
  ∃ results evs started ended,
    getDataFromConsumptionManagement w startDate endDate grouping st
      = (Fulfilled results, add_events evs st)
    ∧ timers evs = [ConsoleTime started; ConsoleTimeEnd ended]
    ∧ (started = ended ↔ is_Some (SUBSCRIPTION_CHUNKS (configLoader_AZURE w))).
Proof.
  intros Hlist Hdays.
  destruct (consumption_batched _ startDate endDate grouping _ _ _ Hlist Hdays)
    as (settlings & Hperms & Hrun).
  rewrite (getSubscriptions_fulfilled _ _ _ _ Hlist), add_events_app in Hrun.
  eexists _, _, _, _. split; [exact Hrun |]. split.
  - fold (listing_warning subscriptions).
    destruct (listing_warning_only_warns subscriptions) as (_ & _ & Hquiet & _).
    rewrite !timers_app, Hquiet.
    rewrite (proj_batches_issue timers timers_app _ _ _ _ Hperms).
    + rewrite (proj_flat_map_nil timers timers_app estimates_issued) by done.
      reflexivity.
    + intros s. unfold estimates_settled.
      destruct (warning_of_only_warns
                  "Unable to get estimate data for Azure subscription " s
                  (estimates_query w (this st) startDate endDate grouping s))
        as (_ & _ & Ht & _).
      exact Ht.
  - destruct (SUBSCRIPTION_CHUNKS (configLoader_AZURE w)) as [k|];
      cbn [template_number or_one].
    + split; [by eexists | done].
    + split; [|by intros [k Hk]].
      intros H. apply string_app_inv_head in H. vm_compute in H. done.
Qed.

Lemma splitEvery_while_single {A} n (l : list A) :
  0 < length l ≤ n → splitEvery_while (length l) n 0 l = [l].
Proof.
  intros [Hpos Hle]. destruct l as [|a l]; [simpl in Hpos; lia |].
  cbn [length splitEvery_while Nat.ltb Nat.leb]. f_equal.
  - unfold slice. rewrite Nat.sub_0_r. cbn [drop]. by apply take_ge.
  - destruct (length l); [done |]. cbn [splitEvery_while].
    destruct (0 + n <? length (a :: l)) eqn:Hlt; [|done].
    apply Nat.ltb_lt in Hlt. lia.
Qed.

Lemma splitEvery_while_one {A} fuel (l : list A) : ∀ idx,
  length l - idx ≤ fuel →
  splitEvery_while fuel 1 idx l = (λ a, [a]) <$> drop idx l.
Proof.
  induction fuel as [|fuel IH]; intros idx Hfuel; cbn [splitEvery_while].
  - rewrite drop_ge by lia. done.
  - destruct (idx <? length l) eqn:Hlt.
    + apply Nat.ltb_lt in Hlt.
      destruct (lookup_lt_is_Some_2 l idx Hlt) as [a Ha].
      rewrite IH by lia. unfold slice.
      replace (idx + 1 - idx) with 1 by lia.
      rewrite (drop_S _ _ _ Ha). rewrite Nat.add_1_r. done.
    + apply Nat.ltb_ge in Hlt. by rewrite drop_ge.
Qed.

(** X12. A batch size that is no smaller than the number of subscriptions
    gives one batch: all queries are issued before any of them settles, as
    when [AZURE.SUBSCRIPTION_CHUNKS] is unset. *)
Theorem large_batch_size_gives_one_batch
    w startDate endDate grouping st subscriptions st1 k :
  getSubscriptions w st = (Fulfilled subscriptions, st1) →
  CONSUMPTION_CHUNKS_DAYS (configLoader_AZURE w) = false →
  SUBSCRIPTION_CHUNKS (configLoader_AZURE w) = Some k →
  length subscriptions ≤ Pos.to_nat k →
  ∃ results evs settling,
    getDataFromConsumptionManagement w startDate endDate grouping st
      = (Fulfilled results, add_events evs st)
    ∧ settling ≡ₚ subscriptions
    ∧ api_trace evs = batch_trace subscriptions settling
    ∧ high_water 0 evs = length subscriptions.
Proof.
  intros Hlist Hdays Hk Hle.
  destruct (consumption_batched _ startDate endDate grouping _ _ _ Hlist Hdays)
    as (settlings & Hperms & Hrun).
  rewrite (getSubscriptions_fulfilled _ _ _ _ Hlist), add_events_app in Hrun.
  fold (listing_warning subscriptions) in Hrun.
  destruct (listing_warning_only_warns subscriptions) as (_ & _ & _ & _ & _ & Hquiet).
  unfold batches_of in Hperms, Hrun. rewrite Hk in Hperms, Hrun.
  assert (∃ settling, settling ≡ₚ subscriptions
    ∧ concat (zip_with batch_trace
                (splitEvery_while (length subscriptions) (Pos.to_nat k) 0
                   subscriptions) settlings)
      = batch_trace subscriptions settling) as (settling & Hperm & Hbatch).
  { destruct subscriptions as [|s subscriptions].
    - cbn in Hperms. apply Forall2_nil_inv_r in Hperms as ->. by exists [].
    - rewrite splitEvery_while_single in Hperms |- *
        by (cbn [length] in *; lia).
      apply Forall2_cons_inv_r in Hperms as (settling & rest & Hperm & Hrest & ->).
      apply Forall2_nil_inv_r in Hrest as ->.
      exists settling. split; [done |]. cbn [zip_with concat].
      by rewrite app_nil_r. }
  eexists _, _, settling. split; [exact Hrun |]. split; [done |].
  match goal with |- api_trace ?evs = ?trace ∧ _ =>
    assert (Htrace : api_trace evs = trace)
  end.
  { rewrite !api_trace_app, Hquiet, api_trace_batches, Hbatch.
    cbn. by rewrite app_nil_r. }
  split; [done |].
  by rewrite high_water_api_trace, Htrace, high_water_batch.
Qed.

(** X13. With [AZURE.SUBSCRIPTION_CHUNKS] set to 1 the batches hold one
    query each, so the upstream sees what it sees when
    [AZURE.CONSUMPTION_CHUNKS_DAYS] is set: every query issued and settled
    before the next one is issued, whatever the completion order. *)
Theorem batch_size_one_runs_one_at_a_time
    w startDate endDate grouping st subscriptions st1 :
  getSubscriptions w st = (Fulfilled subscriptions, st1) →
  CONSUMPTION_CHUNKS_DAYS (configLoader_AZURE w) = false →
  SUBSCRIPTION_CHUNKS (configLoader_AZURE w) = Some 1%positive →
  ∃ results evs,
    getDataFromConsumptionManagement w startDate endDate grouping st
      = (Fulfilled results, add_events evs st)
    ∧ api_trace evs
      = flat_map (λ id, [Issued id; Resolved id]) (subscriptionId <$> subscriptions)
    ∧ high_water 0 evs = Nat.min 1 (length subscriptions).
Proof.
  intros Hlist Hdays Hk.
  destruct (consumption_batched _ startDate endDate grouping _ _ _ Hlist Hdays)
    as (settlings & Hperms & Hrun).
  rewrite (getSubscriptions_fulfilled _ _ _ _ Hlist), add_events_app in Hrun.
  fold (listing_warning subscriptions) in Hrun.
  destruct (listing_warning_only_warns subscriptions) as (_ & _ & _ & _ & _ & Hquiet).
  unfold batches_of in Hperms, Hrun. rewrite Hk in Hperms, Hrun.
  change (Pos.to_nat 1) with 1 in Hperms, Hrun.
  rewrite splitEvery_while_one in Hperms, Hrun by lia.
  rewrite drop_0 in Hperms, Hrun.
  assert (Hbatches :
    concat (zip_with batch_trace ((λ s, [s]) <$> subscriptions) settlings)
    = flat_map (λ id, [Issued id; Resolved id]) (subscriptionId <$> subscriptions)).
  { clear Hrun Hlist Hquiet. revert settlings Hperms.
    induction subscriptions as [|s subscriptions IH]; intros settlings Hperms.
    - apply Forall2_nil_inv_r in Hperms as ->. done.
    - rewrite fmap_cons in Hperms.
      apply Forall2_cons_inv_r in Hperms as (settling & rest & Hperm & Hrest & ->).
      apply Permutation_singleton_r in Hperm as ->.
      rewrite !fmap_cons. cbn [zip_with concat flat_map].
      by rewrite (IH rest Hrest). }
  eexists _, _. split; [exact Hrun |].
  match goal with |- api_trace ?evs = ?trace ∧ _ =>
    assert (Htrace : api_trace evs = trace)
  end.
  { rewrite !api_trace_app, Hquiet, api_trace_batches, Hbatches.
    cbn. by rewrite app_nil_r. }
  split; [done |].
  by rewrite high_water_api_trace, Htrace, high_water_one_by_one, length_fmap.
Qed.

(** X14. From whatever state the facade is in, an [initializeAccount] whose
    two steps succeed replaces both fields, and the estimates fetched
    afterwards are those of the client just constructed, queried with the
    credential just acquired: for every subscription of that client's listing
    the consumption service is asked through a client holding that credential
    and the subscription's id, and the result is the flattening, in list
    order, of its answers, a rejected one contributing nothing. *)
Theorem initialized_facade_queries_with_its_credential
    w startDate endDate grouping st0 credential client subscriptions :
  AzureCredentialsProvider_create w = Fulfilled credential →
  new_SubscriptionClient w (Some credential) = Fulfilled client →
  listing_outcome (subscriptions_list w client) = Fulfilled subscriptions →
  ∃ st st2,
    initializeAccount w st0 = (Fulfilled tt, st)
    ∧ this st = {| credentials := Some credential;
                   subscriptionClient := Some client |}
    ∧ getDataFromConsumptionManagement w startDate endDate grouping st
      = (Fulfilled
           (concat ((λ s, match service_getEstimates w
                                  (queried_service w (Some credential)
                                     (subscriptionId s))
                                  startDate endDate grouping
                          with
                          | Fulfilled results => results
                          | Rejected _ => []
                          end)
                    <$> subscriptions)), st2).
Proof.
  intros Hcreate Hclient Hpages.
  assert (Hinit : initializeAccount w st0
    = (Fulfilled tt,
       {| this := {| credentials := Some credential;
                     subscriptionClient := Some client |};
          history := history st0 |})).
  { unfold initializeAccount, try_catch, bind, settle, read_this, write_this.
    rewrite Hcreate. simpl. by rewrite Hclient. }
  pose proof (getSubscriptions_outcome w
                {| this := {| credentials := Some credential;
                              subscriptionClient := Some client |};
                   history := history st0 |} client eq_refl) as Hlist.
  rewrite Hpages in Hlist.
  destruct (consumption_result _ startDate endDate grouping _ _ _ Hlist)
    as (st2 & Hrun).
  eexists _, st2. split; [exact Hinit |]. split; [done |].
  exact Hrun.
Qed.

End Behaviour.

(** * The properties on the concrete deployment *)

(** C9. With [AZURE.CONSUMPTION_CHUNKS_DAYS] off, the line written at debug
    level is meant to report the configured batch size, or 1 when there is
    none.  The code writes a malformed line instead: with no batch size
    configured it reads "undefined} 1} chunk(s)", with a batch size of 2 it
    reads "2} 1} chunk(s)". *)
Theorem debug_line_is_malformed :
  debug_lines
    (history (getDataFromConsumptionManagement
                (deployment three chunks_unset oldest_first) 0%Z 1%Z "day" ready).2)
  = [Log Debug "Fetching Azure consumption data with undefined} 1} chunk(s)"]
  ∧ intended_debug_line chunks_unset
    = Log Debug "Fetching Azure consumption data with 1 chunk(s)"
  ∧ debug_lines
      (history (getDataFromConsumptionManagement
                  (deployment three chunks_of_two oldest_first) 0%Z 1%Z "day" ready).2)
    = [Log Debug "Fetching Azure consumption data with 2} 1} chunk(s)"]
  ∧ intended_debug_line chunks_of_two
    = Log Debug "Fetching Azure consumption data with 2 chunk(s)".
Proof. repeat split; vm_compute; reflexivity. Qed.

Lemma failed_subscriptions_contribute_nothing_witness :
  (∃ st2,
     getDataFromConsumptionManagement (deployment three chunks_of_two shuffled)
       0%Z 1%Z "day" ready
     = (Fulfilled (["A/compute"; "A/storage"] ++ [] ++ ["C/compute"; "C/storage"]),
        st2)
     ∧ Log Warn "Unable to get estimate data for Azure subscription B: 429 Too Many Requests"
       ∈ history st2)
  ∧ (∃ st2,
       getDataFromAdvisorManagement (deployment three chunks_of_two shuffled) ready
       = (Fulfilled (["A/rightsize"] ++ [] ++ ["C/rightsize"]), st2)
       ∧ Log Warn "Unable to get Advisor recommendations data for Azure subscription B: 429 Too Many Requests"
         ∈ history st2).
Proof.
  destruct (failed_subscriptions_contribute_nothing
              (deployment three chunks_of_two shuffled) 0%Z 1%Z "day" ready three
              (add_events [] ready) eq_refl)
    as [(st2 & Hrun & Hwarn) (st2' & Hrun' & Hwarn')].
  split.
  - exists st2. split; [exact Hrun |].
    apply (Hwarn (sub "B") {| message := "429 Too Many Requests" |});
      [apply list_elem_of_further, list_elem_of_here | reflexivity].
  - exists st2'. split; [exact Hrun' |].
    apply (Hwarn' (sub "B") {| message := "429 Too Many Requests" |});
      [apply list_elem_of_further, list_elem_of_here | reflexivity].
Defined.

Lemma estimates_follow_issue_order_witness :
  ∃ st2,
    getDataFromConsumptionManagement
      (with_completion (deployment [sub "A"; sub "C"; sub "D"] chunks_unset oldest_first)
         shuffled)
      0%Z 1%Z "day" ready
    = (Fulfilled ["A/compute"; "A/storage"; "C/compute"; "C/storage";
                  "D/compute"; "D/storage"], st2).
Proof.
  apply (estimates_follow_issue_order
           (deployment [sub "A"; sub "C"; sub "D"] chunks_unset oldest_first)
           0%Z 1%Z "day" ready [sub "A"; sub "C"; sub "D"] (add_events [] ready)
           (λ s, [subscriptionId s +:+ "/compute"; subscriptionId s +:+ "/storage"])
           shuffled).
  - reflexivity.
  - discriminate.
  - repeat constructor.
Defined.

Lemma chunk_by_day_runs_one_at_a_time_witness :
  ∃ results evs,
    getDataFromConsumptionManagement (deployment three chunk_by_day shuffled)
      0%Z 1%Z "day" ready
    = (Fulfilled results, add_events evs ready)
    ∧ api_trace evs
      = [Issued "A"; Resolved "A"; Issued "B"; Resolved "B";
         Issued "C"; Resolved "C"]
    ∧ high_water 0 evs = 1.
Proof.
  apply (chunk_by_day_runs_one_at_a_time
           (deployment three chunk_by_day shuffled) 0%Z 1%Z "day" ready three
           (add_events [] ready)); reflexivity.
Defined.

Lemma batches_run_behind_a_barrier_witness :
  ∃ chunks,
    R_splitEvery 2 five = Fulfilled chunks
    ∧ concat chunks = five
    ∧ length <$> chunks = [2; 2; 1]
    ∧ ∃ results evs settlings,
        getDataFromConsumptionManagement (deployment five chunks_of_two shuffled)
          0%Z 1%Z "day" ready
        = (Fulfilled results, add_events evs ready)
        ∧ Forall2 (≡ₚ) settlings chunks
        ∧ api_trace evs = concat (zip_with batch_trace chunks settlings)
        ∧ high_water 0 evs ≤ 2.
Proof.
  apply (batches_run_behind_a_barrier
           (deployment five chunks_of_two shuffled) 0%Z 1%Z "day" ready five
           (add_events [] ready) 2%positive); reflexivity.
Defined.

Lemma no_subscription_gives_empty_results_witness :
  add_events [Log Warn no_subscription_warning] ready
  = add_events [Log Warn no_subscription_warning] ready
  ∧ getDataFromAdvisorManagement (deployment [] chunks_of_two shuffled) ready
    = (Fulfilled [], add_events [Log Warn no_subscription_warning] ready)
  ∧ getDataFromConsumptionManagement (deployment [] chunks_of_two shuffled)
      0%Z 1%Z "day" ready
    = (Fulfilled [],
       add_events
         [debug_line chunks_of_two; timer_start chunks_of_two;
          timer_end chunks_of_two]
         (add_events [Log Warn no_subscription_warning] ready)).
Proof.
  apply (no_subscription_gives_empty_results
           (deployment [] chunks_of_two shuffled) 0%Z 1%Z "day" ready
           (add_events [Log Warn no_subscription_warning] ready)).
  reflexivity.
Defined.

Lemma initializeAccount_wraps_the_reason_witness :
  ∃ err st',
    initializeAccount
      (demo_world (Rejected {| message := "invalid client secret" |}) Done
         chunks_unset oldest_first) fresh
    = (Rejected err, st')
    ∧ message err = "Azure initializeAccount failed. Reason: invalid client secret"
    ∧ includes (message err) "invalid client secret".
Proof.
  apply (proj1 (initializeAccount_wraps_the_reason
                  (demo_world (Rejected {| message := "invalid client secret" |})
                     Done chunks_unset oldest_first) fresh)
           {| message := "invalid client secret" |}).
  left. reflexivity.
Defined.

Lemma unset_chunks_run_one_batch_witness :
  ∃ results evs settling,
    getDataFromConsumptionManagement (deployment three chunks_unset shuffled)
      0%Z 1%Z "day" ready
    = (Fulfilled results, add_events evs ready)
    ∧ settling ≡ₚ three
    ∧ api_trace evs = batch_trace three settling
    ∧ high_water 0 evs = 3.
Proof.
  apply (unset_chunks_run_one_batch
           (deployment three chunks_unset shuffled) 0%Z 1%Z "day" ready three
           (add_events [] ready)); reflexivity.
Defined.

Lemma fields_are_assigned_once_witness :
  (∃ credential client,
     this ready = {| credentials := Some credential;
                     subscriptionClient := Some client |})
  ∧ this (run_operations (deployment three chunks_of_two shuffled)
            [GetSubscriptions; GetDataFromAdvisorManagement;
             GetDataFromConsumptionManagement 0%Z 1%Z "day"] ready)
    = this ready.
Proof.
  apply (fields_are_assigned_once (deployment three chunks_of_two shuffled) fresh).
  reflexivity.
Defined.

(** * The further properties on the concrete deployment *)

Lemma uninitialized_facade_rejects_witness :
  ∃ e,
    getSubscriptions (deployment three chunks_of_two shuffled) fresh
      = (Rejected e, fresh)
    ∧ getDataFromAdvisorManagement (deployment three chunks_of_two shuffled) fresh
      = (Rejected e, fresh)
    ∧ getDataFromConsumptionManagement (deployment three chunks_of_two shuffled)
        0%Z 1%Z "day" fresh
      = (Rejected e, fresh).
Proof.
  apply (uninitialized_facade_rejects (deployment three chunks_of_two shuffled)
           0%Z 1%Z "day" fresh).
  reflexivity.
Defined.

Lemma only_the_listing_can_fail_witness :
  getSubscriptions
    (demo_world (Fulfilled "secret") broken_pages chunks_of_two shuffled) ready
    = (Rejected {| message := "503 Service Unavailable" |}, ready)
  ∧ getDataFromAdvisorManagement
      (demo_world (Fulfilled "secret") broken_pages chunks_of_two shuffled) ready
    = (Rejected {| message := "503 Service Unavailable" |}, ready)
  ∧ getDataFromConsumptionManagement
      (demo_world (Fulfilled "secret") broken_pages chunks_of_two shuffled)
      0%Z 1%Z "day" ready
    = (Rejected {| message := "503 Service Unavailable" |}, ready).
Proof.
  apply (proj1 (only_the_listing_can_fail
                  (demo_world (Fulfilled "secret") broken_pages chunks_of_two
                     shuffled)
                  0%Z 1%Z "day" ready "client of secret"
                  {| message := "503 Service Unavailable" |} eq_refl)).
  reflexivity.
Defined.

Lemma subscriptions_come_in_upstream_order_witness :
  getSubscriptions (deployment three chunks_unset oldest_first) ready
  = (Fulfilled three, add_events [] ready).
Proof.
  apply (subscriptions_come_in_upstream_order
           (deployment three chunks_unset oldest_first) ready "client of secret"
           three); reflexivity.
Defined.


Lemma queries_are_issued_in_list_order_witness :
  ∃ results evs,
    getDataFromConsumptionManagement (deployment five chunks_of_two shuffled)
      0%Z 1%Z "day" ready
    = (Fulfilled results, add_events evs ready)
    ∧ issued_ids evs = ["A"; "B"; "C"; "D"; "E"]
    ∧ info_lines evs
      = [Log Info "Getting data for Subscription A...";
         Log Info "Getting data for Subscription B...";
         Log Info "Getting data for Subscription C...";
         Log Info "Getting data for Subscription D...";
         Log Info "Getting data for Subscription E..."]
    ∧ resolved_ids evs ≡ₚ ["A"; "B"; "C"; "D"; "E"].
Proof.
  apply (queries_are_issued_in_list_order
           (deployment five chunks_of_two shuffled) 0%Z 1%Z "day" ready five
           (add_events [] ready)).
  reflexivity.
Defined.

Lemma one_warning_per_failed_subscription_witness :
  (∃ results evs,
     getDataFromConsumptionManagement (deployment three chunks_of_two shuffled)
       0%Z 1%Z "day" ready
     = (Fulfilled results, add_events evs ready)
     ∧ warn_lines evs
       ≡ₚ [Log Warn "Unable to get estimate data for Azure subscription B: 429 Too Many Requests"])
  ∧ (∃ recommendations evs,
       getDataFromAdvisorManagement (deployment three chunks_of_two shuffled) ready
       = (Fulfilled recommendations, add_events evs ready)
       ∧ warn_lines evs
         ≡ₚ [Log Warn "Unable to get Advisor recommendations data for Azure subscription B: 429 Too Many Requests"]).
Proof.
  apply (one_warning_per_failed_subscription
           (deployment three chunks_of_two shuffled) 0%Z 1%Z "day" ready three
           (add_events [] ready)).
  reflexivity.
Defined.

Lemma advisor_fans_out_at_once_witness :
  ∃ recommendations evs settling,
    getDataFromAdvisorManagement (deployment three chunk_by_day shuffled) ready
    = (Fulfilled recommendations, add_events evs ready)
    ∧ settling ≡ₚ three
    ∧ api_trace evs = batch_trace three settling
    ∧ high_water 0 evs = 3.
Proof.
  apply (advisor_fans_out_at_once (deployment three chunk_by_day shuffled)
           ready three (add_events [] ready)).
  reflexivity.
Defined.

Lemma subscriptions_are_listed_by_every_operation_witness :
  ∃ evs,
    run_operations (deployment [] chunks_of_two shuffled)
      [GetDataFromAdvisorManagement; GetSubscriptions;
       GetDataFromConsumptionManagement 0%Z 1%Z "day"] ready
    = add_events evs ready
    ∧ warn_lines evs = replicate 3 (Log Warn no_subscription_warning).
Proof.
  apply (subscriptions_are_listed_by_every_operation
           (deployment [] chunks_of_two shuffled)
           [GetDataFromAdvisorManagement; GetSubscriptions;
            GetDataFromConsumptionManagement 0%Z 1%Z "day"]
           ready "client of secret"); reflexivity.
Defined.

Lemma chunk_by_day_ignores_the_batch_size_witness :
  getDataFromConsumptionManagement
    (reconfigure (deployment three chunk_by_day shuffled) chunk_by_day_only
       oldest_first)
    0%Z 1%Z "day" ready
  = getDataFromConsumptionManagement (deployment three chunk_by_day shuffled)
      0%Z 1%Z "day" ready.
Proof.
  apply (chunk_by_day_ignores_the_batch_size
           (deployment three chunk_by_day shuffled) chunk_by_day_only oldest_first);
    reflexivity.
Defined.

Lemma configuration_never_changes_the_estimates_witness :
  ∃ results st2 st2',
    getDataFromConsumptionManagement (deployment five chunks_of_two shuffled)
      0%Z 1%Z "day" ready
    = (Fulfilled results, st2)
    ∧ getDataFromConsumptionManagement
        (reconfigure (deployment five chunks_of_two shuffled) chunk_by_day
           oldest_first)
        0%Z 1%Z "day" ready
      = (Fulfilled results, st2').
Proof.
  apply (configuration_never_changes_the_estimates
           (deployment five chunks_of_two shuffled) chunk_by_day oldest_first
           0%Z 1%Z "day" ready five (add_events [] ready)).
  reflexivity.
Defined.

Lemma timer_labels_match_when_chunks_are_set_witness :
  ∃ results evs started ended,
    getDataFromConsumptionManagement (deployment three chunks_unset shuffled)
      0%Z 1%Z "day" ready
    = (Fulfilled results, add_events evs ready)
    ∧ timers evs = [ConsoleTime started; ConsoleTimeEnd ended]
    ∧ (started = ended ↔ is_Some (@None positive)).
Proof.
  apply (timer_labels_match_when_chunks_are_set
           (deployment three chunks_unset shuffled) 0%Z 1%Z "day" ready three
           (add_events [] ready)); reflexivity.
Defined.

Lemma large_batch_size_gives_one_batch_witness :
  ∃ results evs settling,
    getDataFromConsumptionManagement
      (deployment [sub "A"; sub "B"] chunks_of_two shuffled) 0%Z 1%Z "day" ready
    = (Fulfilled results, add_events evs ready)
    ∧ settling ≡ₚ [sub "A"; sub "B"]
    ∧ api_trace evs = batch_trace [sub "A"; sub "B"] settling
    ∧ high_water 0 evs = 2.
Proof.
  apply (large_batch_size_gives_one_batch
           (deployment [sub "A"; sub "B"] chunks_of_two shuffled)
           0%Z 1%Z "day" ready [sub "A"; sub "B"] (add_events [] ready)
           2%positive); [reflexivity | reflexivity | reflexivity |].
  vm_compute. lia.
Defined.

Lemma batch_size_one_runs_one_at_a_time_witness :
  ∃ results evs,
    getDataFromConsumptionManagement (deployment three chunks_of_one shuffled)
      0%Z 1%Z "day" ready
    = (Fulfilled results, add_events evs ready)
    ∧ api_trace evs
      = [Issued "A"; Resolved "A"; Issued "B"; Resolved "B";
         Issued "C"; Resolved "C"]
    ∧ high_water 0 evs = 1.
Proof.
  apply (batch_size_one_runs_one_at_a_time
           (deployment three chunks_of_one shuffled) 0%Z 1%Z "day" ready three
           (add_events [] ready)); reflexivity.
Defined.

Lemma initialized_facade_queries_with_its_credential_witness :
  ∃ st st2,
    initializeAccount (guarded_world chunks_of_two shuffled) stale
      = (Fulfilled tt, st)
    ∧ this st = {| credentials := Some "renewed";
                   subscriptionClient := Some "client of renewed" |}
    ∧ getDataFromConsumptionManagement (guarded_world chunks_of_two shuffled)
        0%Z 1%Z "day" st
      = (Fulfilled ["A as renewed"; "C as renewed"], st2).
Proof.
  apply (initialized_facade_queries_with_its_credential
           (guarded_world chunks_of_two shuffled) 0%Z 1%Z "day" stale
           "renewed" "client of renewed" three); reflexivity.
Defined.
